(** * AfroBase image server: the upload and listing handlers of [main.go]

    A shallow embedding of the Go program.  Go strings are byte strings and
    are modelled by [string] (a list of 8-bit characters); [[]byte] is
    [list byte]; [int64] values are [Z]; [fiber.Map] and
    [map[string]interface{}] are [gmap string Value].  A response holds the
    JSON document [c.JSON] sends: the Go value after [encoding/json], which
    replaces every byte that is not part of a valid UTF-8 encoding by
    U+FFFD. *)

From Stdlib Require Import ZArith NArith Ascii String DecimalString DecimalZ.
From Stdlib.Strings Require Import Byte.
From stdpp Require Import base list strings gmap.

Local Open Scope Z_scope.

(** ** Go string primitives *)

Module gostr.

(** [len(s)] *)
Definition len (s : string) : nat := String.length s.

(** [s[lo:hi]] *)
Definition slice (s : string) (lo hi : nat) : string :=
  String.substring lo (hi - lo) s.

(** [s[lo:]] *)
Definition slice_from (s : string) (lo : nat) : string :=
  slice s lo (len s).

(** [s[:hi]] *)
Definition slice_to (s : string) (hi : nat) : string :=
  slice s 0 hi.

End gostr.

(** ** Package [strings] *)

Module strings.

(** The replacement loop of [strings.Replace(s, old, new, -1)] for a
    non-empty [old]: scanning left to right, every non-overlapping
    occurrence of [old] is replaced by [new].  [skip] counts the bytes of
    the occurrence just replaced that are still to be passed over. *)
Fixpoint replace_scan (old new : string) (skip : nat) (s : string) : string :=
  match s with
  | EmptyString => EmptyString
  | String c rest =>
      match skip with
      | S k => replace_scan old new k rest
      | O =>
          if String.prefix old s
          then new +:+ replace_scan old new (Nat.pred (String.length old)) rest
          else String c (replace_scan old new O rest)
      end
  end.

(** [strings.ReplaceAll(s, old, new)].  With an empty [old] Go inserts
    [new] at every rune boundary; the program never passes an empty [old]
    and this case is left as the identity here. *)
Definition ReplaceAll (s old new : string) : string :=
  match old with
  | EmptyString => s
  | _ => replace_scan old new O s
  end.

(** [strings.HasSuffix(s, suffix)] *)
Definition HasSuffix (s suffix : string) : bool :=
  (gostr.len suffix <=? gostr.len s)%nat
  && String.eqb (gostr.slice_from s (gostr.len s - gostr.len suffix)) suffix.

(** [strings.TrimSuffix(s, suffix)] *)
Definition TrimSuffix (s suffix : string) : string :=
  if HasSuffix s suffix
  then gostr.slice_to s (gostr.len s - gostr.len suffix)
  else s.

End strings.

(** ** Package [path/filepath] (Unix) *)

Module filepath.

(** [os.IsPathSeparator] *)
Definition IsPathSeparator (c : ascii) : bool := Ascii.eqb c "/".

(** The loop of [filepath.Ext]: [n] is [i + 1] for the index [i] about to
    be inspected, so the loop stops at [n = 0]. *)
Fixpoint ext_scan (path : string) (n : nat) : string :=
  match n with
  | O => EmptyString
  | S i =>
      match String.get i path with
      | Some c =>
          if IsPathSeparator c then EmptyString
          else if Ascii.eqb c "." then gostr.slice_from path i
          else ext_scan path i
      | None => EmptyString
      end
  end.

(** [filepath.Ext(path)]: the suffix beginning at the final dot in the
    final element of [path]; empty if there is no dot. *)
Definition Ext (path : string) : string := ext_scan path (gostr.len path).

(** [filepath.Join("./uploads", name)].  [Join] cleans the result, which
    drops the leading [./]; [name] is a single path element here (an entry
    name returned by [ReadDir], or a generated file name, which holds no
    [/]), so nothing else is rewritten. *)
Definition Join_uploads (name : string) : string := "uploads/" +:+ name.

End filepath.

(** ** [sanitizeFilename] *)

Definition sanitizeFilename (filename : string) : string :=
  let filename := strings.ReplaceAll filename " " "_" in
  let filename := strings.ReplaceAll filename "/" "-" in
  let filename := strings.ReplaceAll filename "\" "-" in
  let filename := strings.ReplaceAll filename ":" "-" in
  let filename := strings.ReplaceAll filename "*" "-" in
  let filename := strings.ReplaceAll filename "?" "-" in
  let filename := strings.ReplaceAll filename (String "034" EmptyString) "-" in
  let filename := strings.ReplaceAll filename "<" "-" in
  let filename := strings.ReplaceAll filename ">" "-" in
  let filename := strings.ReplaceAll filename "|" "-" in
  if (50 <? gostr.len filename)%nat
  then gostr.slice_to filename 50
  else filename.

(** ** Package [encoding/base64]: [StdEncoding.DecodeString]

    The Go standard library is not part of the repository; this is its
    decoder for the standard alphabet with [=] padding, non-strict mode.
    Carriage returns and line feeds are skipped wherever they occur. *)

Module base64.

(** [encodeStd], the alphabet of [StdEncoding]. *)
Definition encodeStd : string :=
  "ABCDEFGHIJKLMNOPQRSTUVWXYZabcdefghijklmnopqrstuvwxyz0123456789+/".

Fixpoint index_of (c : ascii) (s : string) (i : N) : option N :=
  match s with
  | EmptyString => None
  | String d rest => if Ascii.eqb c d then Some i else index_of c rest (i + 1)%N
  end.

(** [enc.decodeMap[in]]; [None] stands for the table's [0xff]. *)
Definition decodeMap (c : ascii) : option N := index_of c encodeStd 0%N.

Definition padChar : ascii := "=".

Definition is_newline (c : ascii) : bool :=
  Ascii.eqb c "010" || Ascii.eqb c "013".

(** [byte(v)]: the low eight bits. *)
Definition to_byte (v : N) : byte :=
  default x00 (Byte.of_N (v mod 256)%N).

(** [val := dbuf[0]<<18 | dbuf[1]<<12 | dbuf[2]<<6 | dbuf[3]] *)
Definition quantum (d0 d1 d2 d3 : N) : N :=
  N.lor (N.lor (N.lor (N.shiftl d0 18) (N.shiftl d1 12)) (N.shiftl d2 6)) d3.

(** The first [n] of the three bytes [val>>16], [val>>8], [val]. *)
Definition quantum_bytes (val : N) (n : nat) : list byte :=
  take n [to_byte (N.shiftr val 16); to_byte (N.shiftr val 8); to_byte val].

(** [for si < len(src) && (src[si] == '\n' || src[si] == '\r') { si++ }] *)
Fixpoint skip_newlines (src : string) : string :=
  match src with
  | EmptyString => EmptyString
  | String c rest => if is_newline c then skip_newlines rest else src
  end.

(** [Decode] as repeated [decodeQuantum]: [dbuf] holds the 6-bit values of
    the quantum being read ([j] is its length).  [None] is a
    [CorruptInputError]. *)
Fixpoint decode (src : string) (dbuf : list N) : option (list byte) :=
  match src with
  | EmptyString =>
      match dbuf with
      | [] => Some []
      | _ => None
      end
  | String c rest =>
      match decodeMap c with
      | Some out =>
          match dbuf with
          | [d0; d1; d2] =>
              match decode rest [] with
              | Some tail => Some (quantum_bytes (quantum d0 d1 d2 out) 3 ++ tail)
              | None => None
              end
          | _ => decode rest (dbuf ++ [out])
          end
      | None =>
          if is_newline c then decode rest dbuf
          else if negb (Ascii.eqb c padChar) then None
          else
            match dbuf with
            | [d0; d1] =>
                match skip_newlines rest with
                | String p rest' =>
                    if negb (Ascii.eqb p padChar) then None
                    else
                      match skip_newlines rest' with
                      | EmptyString => Some (quantum_bytes (quantum d0 d1 0 0) 1)
                      | _ => None
                      end
                | EmptyString => None
                end
            | [d0; d1; d2] =>
                match skip_newlines rest with
                | EmptyString => Some (quantum_bytes (quantum d0 d1 d2 0) 2)
                | _ => None
                end
            | _ => None
            end
      end
  end.

Definition DecodeString (s : string) : option (list byte) := decode s [].

End base64.

(** ** Package [unicode/utf8]

    What [encoding/json] uses of the Go standard library (not part of the
    repository): the size of the encoding a string starts with, after the
    tables [first] and [acceptRanges] of [utf8.DecodeRuneInString]. *)

Module utf8.

(** [lo <= c && c <= hi] on a byte. *)
Definition in_range (lo hi : N) (c : ascii) : bool :=
  (lo <=? N_of_ascii c)%N && (N_of_ascii c <=? hi)%N.

(** [c < utf8.RuneSelf]: a one-byte character. *)
Definition is_ascii (c : ascii) : bool := (N_of_ascii c <? 128)%N.

(** The rest of [s] after a first byte in [lo..hi], if [s] starts so. *)
Definition tail_in (lo hi : N) (s : string) : option string :=
  match s with
  | String c rest => if in_range lo hi c then Some rest else None
  | EmptyString => None
  end.

(** [s] starts with [n] continuation bytes ([80..BF]). *)
Fixpoint conts (n : nat) (s : string) : bool :=
  match n with
  | O => true
  | S k =>
      match tail_in 128 191 s with
      | Some rest => conts k rest
      | None => false
      end
  end.

(** The size of the encoding [s] starts with, and [0] where
    [DecodeRuneInString] returns [(RuneError, 1)]: a byte that starts no
    encoding, an encoding cut short, an overlong form, a surrogate, a value
    above U+10FFFF. *)
Definition rune_size (s : string) : nat :=
  match s with
  | EmptyString => 0
  | String c rest =>
      if is_ascii c then 1
      else if in_range 194 223 c then (if conts 1 rest then 2 else 0)
      else if in_range 224 224 c then
        match tail_in 160 191 rest with
        | Some rest' => if conts 1 rest' then 3 else 0
        | None => 0
        end
      else if in_range 237 237 c then
        match tail_in 128 159 rest with
        | Some rest' => if conts 1 rest' then 3 else 0
        | None => 0
        end
      else if in_range 225 239 c then (if conts 2 rest then 3 else 0)
      else if in_range 240 240 c then
        match tail_in 144 191 rest with
        | Some rest' => if conts 2 rest' then 4 else 0
        | None => 0
        end
      else if in_range 244 244 c then
        match tail_in 128 143 rest with
        | Some rest' => if conts 2 rest' then 4 else 0
        | None => 0
        end
      else if in_range 241 243 c then (if conts 3 rest then 4 else 0)
      else 0
  end%nat.

(** The loop of [utf8.ValidString]; [pending] bytes of the encoding just
    accepted are still to be passed over. *)
Fixpoint valid_scan (pending : nat) (s : string) : bool :=
  match s with
  | EmptyString => true
  | String c rest =>
      match pending with
      | S k => valid_scan k rest
      | O =>
          match rune_size s with
          | O => false
          | S k => valid_scan k rest
          end
      end
  end.

(** [utf8.ValidString(s)] *)
Definition ValidString (s : string) : bool := valid_scan 0 s.

(** U+FFFD, the replacement character, in UTF-8: [EF BF BD]. *)
Definition RuneError : string :=
  String "239" (String "191" (String "189" EmptyString)).

End utf8.

(** ** Data model *)

(** [type ImagePayload struct] *)
Record ImagePayload := {
  Title : string;
  Description : string;
  Image : string
}.

(** The [interface{}] values the handlers put in their maps. *)
Inductive Value :=
| VString (s : string)
| VBool (b : bool)
| VInt (n : Z).

(** What a handler hands to [c.JSON], and the JSON document that is sent:
    a [fiber.Map] or a slice of maps. *)
Inductive Body :=
| JSONMap (m : gmap string Value)
| JSONArray (l : list (gmap string Value)).

(** The HTTP response: the status set by [c.Status] (200 by default) and
    the JSON document of the body, as a client parses it. *)
Record Response := {
  Status : Z;
  body : Body
}.

(** ** Package [encoding/json]: what [json.Marshal] does to the values

    Fiber's [c.JSON] encodes with [json.Marshal].  Read back by a JSON
    parser, a number and a boolean are what they were, and a string is what
    it was except that every byte at which no valid UTF-8 encoding starts
    has become U+FFFD (the escapes of the text are undone by the parser). *)

Module json.

(** The loop of the string encoder; [pending] bytes of the encoding just
    accepted are still to be copied. *)
Fixpoint string_scan (pending : nat) (s : string) : string :=
  match s with
  | EmptyString => EmptyString
  | String c rest =>
      match pending with
      | S k => String c (string_scan k rest)
      | O =>
          match utf8.rune_size s with
          | O => utf8.RuneError +:+ string_scan O rest
          | S k => String c (string_scan k rest)
          end
      end
  end.

(** The string a client reads where the program put [s]. *)
Definition string_of (s : string) : string := string_scan 0 s.

Definition value (v : Value) : Value :=
  match v with
  | VString s => VString (string_of s)
  | VBool b => VBool b
  | VInt n => VInt n
  end.

(** A map; the keys of the program's maps are ASCII constants, which the
    encoding leaves as they are. *)
Definition object (m : gmap string Value) : gmap string Value := value <$> m.

Definition document (data : Body) : Body :=
  match data with
  | JSONMap m => JSONMap (object m)
  | JSONArray l => JSONArray (object <$> l)
  end.

End json.

(** [c.Status(code).JSON(data)] *)
Definition c_JSON (code : Z) (data : Body) : Response :=
  {| Status := code; body := json.document data |}.

(** [os.FileInfo], as far as the program reads it; [ModTime] is already
    [ModTime().Unix()]. *)
Record FileInfo := {
  Name : string;
  IsDir : bool;
  Size : Z;
  ModTime : Z
}.

(** The lines written with [log.Printf]; the [%v] rendering of an error is
    not kept. *)
Inductive LogEntry :=
| LogReadDirError
| LogStatError
| LogBodyError
| LogBase64Error
| LogSaveError
| LogUploaded (filename title description : string).

(** The outcome the operating system gives to one [ioutil.WriteFile]:
    success, or an error that leaves the path as it was ([None]) or holding
    some other content ([Some], the file was created or truncated before
    the failure). *)
Inductive WriteResult :=
| WriteOk
| WriteErr (left : option (list byte)).

(** What the environment answers to the calls of one request. *)
Record OS := {
  (** [time.Now().Unix()] *)
  Now : Z;
  (** outcome of [ioutil.WriteFile(path, data, 0644)] *)
  write_result : string -> list byte -> WriteResult;
  (** [ioutil.ReadDir("./uploads")]; [None] is an error *)
  ReadDir_uploads : option (list FileInfo);
  (** [os.Stat(path)]; [None] is an error *)
  Stat : string -> option FileInfo
}.

(** The request context: [c.BodyParser(&payload)] fails ([None]) or fills
    the payload. *)
Record Ctx := {
  BodyParser : option ImagePayload
}.

(** The state the handlers act on: the files on disk by path, and the log. *)
Record World := {
  files : gmap string (list byte);
  logs : list LogEntry
}.

Definition log_Printf (e : LogEntry) (w : World) : World :=
  {| files := files w; logs := logs w ++ [e] |}.

(** [ioutil.WriteFile(path, data, 0644)]; the boolean is [err == nil]. *)
Definition WriteFile (os : OS) (path : string) (data : list byte) (w : World)
  : World * bool :=
  match write_result os path data with
  | WriteOk => ({| files := <[path := data]> (files w); logs := logs w |}, true)
  | WriteErr None => (w, false)
  | WriteErr (Some d) => ({| files := <[path := d]> (files w); logs := logs w |}, false)
  end.

(** [c.Status(code).JSON(fiber.Map{"error": msg, "success": false})] *)
Definition error_response (code : Z) (msg : string) : Response :=
  c_JSON code (JSONMap {[ "error" := VString msg; "success" := VBool false ]}).

(** [fmt.Sprintf("%d", n)] *)
Definition format_d (n : Z) : string := NilEmpty.string_of_int (Z.to_int n).

(** ** [getImageList] *)

(** The map built for one directory entry. *)
Definition image_of (file fileInfo : FileInfo) : gmap string Value :=
  {[ "name" := VString (Name file);
     "size" := VInt (Size fileInfo);
     "upload_time" := VInt (ModTime fileInfo);
     "title" := VString (strings.TrimSuffix (Name file) (filepath.Ext (Name file)));
     "description" := VString "Uploaded image";
     "url" := VString ("http://localhost:5174/uploads/" +:+ Name file) ]}.

(** [for _, file := range files { ... }], threading [images] and the log. *)
Fixpoint list_loop (os : OS) (files : list FileInfo)
    (images : list (gmap string Value)) (w : World)
  : list (gmap string Value) * World :=
  match files with
  | [] => (images, w)
  | file :: rest =>
      if negb (IsDir file) then
        match Stat os (filepath.Join_uploads (Name file)) with
        | None => list_loop os rest images (log_Printf LogStatError w)
        | Some fileInfo => list_loop os rest (images ++ [image_of file fileInfo]) w
        end
      else list_loop os rest images w
  end.

Definition getImageList (os : OS) (w : World) : Response * World :=
  match ReadDir_uploads os with
  | None =>
      (error_response 500 "Failed to read uploads directory",
       log_Printf LogReadDirError w)
  | Some files =>
      let '(images, w) := list_loop os files [] w in
      if (length images =? 0)%nat
      then (c_JSON 200 (JSONArray []), w)
      else (c_JSON 200 (JSONArray images), w)
  end.

(** ** [handleImageUpload] *)

(** [imageData[i]], used only under the guard [len(imageData) >= 4]. *)
Definition at_index (imageData : list byte) (i : nat) : byte :=
  nth i imageData x00.

(** The format detection block: the value assigned to [fileExt]. *)
Definition fileExt (imageData : list byte) : string :=
  if (4 <=? length imageData)%nat then
    if Byte.eqb (at_index imageData 0) xff && Byte.eqb (at_index imageData 1) xd8
    then ".jpg"
    else if Byte.eqb (at_index imageData 0) x89 && Byte.eqb (at_index imageData 1) x50
            && Byte.eqb (at_index imageData 2) x4e && Byte.eqb (at_index imageData 3) x47
    then ".png"
    else if Byte.eqb (at_index imageData 0) x47 && Byte.eqb (at_index imageData 1) x49
            && Byte.eqb (at_index imageData 2) x46
    then ".gif"
    else if Byte.eqb (at_index imageData 0) x52 && Byte.eqb (at_index imageData 1) x49
            && Byte.eqb (at_index imageData 2) x46 && Byte.eqb (at_index imageData 3) x46
    then ".webp"
    else ".jpg"
  else ".jpg".

(** The title part of the file name: the sanitized title, or [image]. *)
Definition title_part (title : string) : string :=
  let sanitizedTitle := sanitizeFilename title in
  if String.eqb sanitizedTitle "" then "image" else sanitizedTitle.

(** [fmt.Sprintf("%d_%s%s", timestamp, sanitizedTitle, fileExt)] *)
Definition upload_filename (timestamp : Z) (title : string) (imageData : list byte)
  : string :=
  format_d timestamp +:+ "_" +:+ title_part title +:+ fileExt imageData.

Definition handleImageUpload (os : OS) (c : Ctx) (w : World) : Response * World :=
  match BodyParser c with
  | None => (error_response 400 "Invalid request body", log_Printf LogBodyError w)
  | Some payload =>
      if String.eqb (Image payload) "" then
        (error_response 400 "Image data is required", w)
      else
        match base64.DecodeString (Image payload) with
        | None =>
            (error_response 400 "Invalid base64 image data",
             log_Printf LogBase64Error w)
        | Some imageData =>
            let timestamp := Now os in
            let filename := upload_filename timestamp (Title payload) imageData in
            let filepath := filepath.Join_uploads filename in
            match WriteFile os filepath imageData w with
            | (w, false) =>
                (error_response 500 "Failed to save image", log_Printf LogSaveError w)
            | (w, true) =>
                (c_JSON 200
                   (JSONMap {[ "success" := VBool true;
                               "url" := VString ("/uploads/" +:+ filename) ]}),
                 log_Printf (LogUploaded filename (Title payload) (Description payload)) w)
            end
        end
  end.

(** ** The sanitizer as the specification words it *)

(** The ten characters the specification calls forbidden. *)
Definition forbidden : list ascii :=
  [" "; "/"; "\"; ":"; "*"; "?"; "034"; "<"; ">"; "|"]%char.

(** A space becomes [_], each of the other nine becomes [-], every other
    character stays. *)
Definition sanitize_char (c : ascii) : ascii :=
  if Ascii.eqb c " " then "_"%char
  else if bool_decide (c ∈ forbidden) then "-"%char
  else c.

(** One byte rewritten: [a] becomes [b]. *)
Definition replace_byte (a b c : ascii) : ascii :=
  if Ascii.eqb c a then b else c.

Fixpoint map_chars (f : ascii -> ascii) (s : string) : string :=
  match s with
  | EmptyString => EmptyString
  | String c rest => String (f c) (map_chars f rest)
  end.

(** The first [n] bytes of [s] (all of [s] when it is shorter). *)
Fixpoint first_bytes (n : nat) (s : string) : string :=
  match n, s with
  | S k, String c rest => String c (first_bytes k rest)
  | _, _ => EmptyString
  end.

Definition sanitize_spec (title : string) : string :=
  first_bytes 50 (map_chars sanitize_char title).

(** The bytes of [s] from index [n] on. *)
Fixpoint drop_bytes (n : nat) (s : string) : string :=
  match n, s with
  | S k, String _ rest => drop_bytes k rest
  | _, _ => s
  end.

(** ** The listing as the specification words it *)

(** The map the loop builds for one directory entry: none for a
    directory, none when its metadata cannot be read. *)
Definition built (os : OS) (file : FileInfo) : option (gmap string Value) :=
  if IsDir file then None
  else image_of file <$> Stat os (filepath.Join_uploads (Name file)).

(** The record of one directory entry in the answer: none for a directory,
    none when its metadata cannot be read, else the map built for it, as
    JSON carries it. *)
Definition listed (os : OS) (file : FileInfo) : option (gmap string Value) :=
  if IsDir file then None
  else (fun fileInfo => json.object (image_of file fileInfo))
         <$> Stat os (filepath.Join_uploads (Name file)).

(** The same environment with another answer to [ReadDir]. *)
Definition with_entries (os : OS) (entries : list FileInfo) : OS :=
  {| Now := Now os;
     write_result := write_result os;
     ReadDir_uploads := Some entries;
     Stat := Stat os |}.

(** What is said of a record [m] of the answer made for the entry [file]:
    with [title] the file name without its extension, the record carries
    the name and that title as JSON encodes them, which is the name and the
    title themselves when the name is valid UTF-8, and its description is
    the fixed text. *)
Definition record_for (file : FileInfo) (m : gmap string Value) : Prop :=
  exists title,
    title = strings.TrimSuffix (Name file) (filepath.Ext (Name file))
    /\ Name file = title +:+ filepath.Ext (Name file)
    /\ m !! "name" = Some (VString (json.string_of (Name file)))
    /\ m !! "title" = Some (VString (json.string_of title))
    /\ m !! "description" = Some (VString "Uploaded image")
    /\ (utf8.ValidString (Name file) = true ->
        m !! "name" = Some (VString (Name file))
        /\ m !! "title" = Some (VString title)).

(** A character that is neither the dot nor the path separator. *)
Definition plain (c : ascii) : Prop := c <> "."%char /\ c <> "/"%char.

Global Instance plain_dec c : Decision (plain c).
Proof. unfold plain. apply _. Defined.

(** ** Sample environments *)

Definition sample_entry : FileInfo :=
  {| Name := "1700000000_My_Photo!.png"; IsDir := false; Size := 8; ModTime := 1700000000 |}.

Definition sample_dir : FileInfo :=
  {| Name := "thumbs"; IsDir := true; Size := 4096; ModTime := 1700000001 |}.

(** A directory whose one entry cannot be read with [os.Stat] (a dangling
    symbolic link, or a file removed after [ReadDir] returned). *)
Definition os_unreadable : OS :=
  {| Now := 1700000000;
     write_result := fun _ _ => WriteOk;
     ReadDir_uploads := Some [sample_entry];
     Stat := fun _ => None |}.

(** A healthy environment: every write succeeds, every entry can be read. *)
Definition os_healthy : OS :=
  {| Now := 1700000000;
     write_result := fun _ _ => WriteOk;
     ReadDir_uploads := Some [sample_dir; sample_entry];
     Stat := fun _ => Some sample_entry |}.

(** An environment whose disk is full: every write fails and leaves the
    path as it was. *)
Definition os_disk_full : OS :=
  {| Now := 1700000000;
     write_result := fun _ _ => WriteErr None;
     ReadDir_uploads := Some [];
     Stat := fun _ => None |}.

(** A request whose image field is a data URL, not bare base64. *)
Definition data_url_upload : Ctx :=
  {| BodyParser := Some {| Title := "My Photo!"; Description := "a test";
                           Image := "data:image/png;base64,iVBORw0KGgo=" |} |}.

(** A title of 49 letters followed by U+00E9 ([C3 A9]): 51 bytes. *)
Definition cut_title : string :=
  "aaaaaaaaaaaaaaaaaaaaaaaaaaaaaaaaaaaaaaaaaaaaaaaaa"
  +:+ String "195" (String "169" EmptyString).





(** The healthy environment one second later. *)
Definition os_later : OS :=
  {| Now := 1700000001;
     write_result := fun _ _ => WriteOk;
     ReadDir_uploads := Some [sample_dir; sample_entry];
     Stat := fun _ => Some sample_entry |}.

Definition empty_world : World := {| files := ∅; logs := [] |}.

Definition png_upload : Ctx :=
  {| BodyParser := Some {| Title := "My Photo!"; Description := "a test";
                           Image := "iVBORw0KGgo=" |} |}.

(** A second request in the same clock second: the title
    differs in a space, the image has one byte more. *)
Definition png_upload_again : Ctx :=
  {| BodyParser := Some {| Title := "My_Photo!"; Description := "another";
                           Image := "iVBORw0KGgoA" |} |}.

(** The characters [%d] prints: decimal digits and the minus sign. *)
Definition decimal_chars : list ascii :=
  ["0"; "1"; "2"; "3"; "4"; "5"; "6"; "7"; "8"; "9"; "-"]%char.

(** The log line of one directory entry: one for a file whose metadata
    cannot be read, none otherwise. *)
Definition missed (os : OS) (file : FileInfo) : option LogEntry :=
  if IsDir file then None
  else
    match Stat os (filepath.Join_uploads (Name file)) with
    | None => Some LogStatError
    | Some _ => None
    end.

(** An entry that gets a record: a file whose metadata can be read. *)
Definition is_listed (os : OS) (file : FileInfo) : bool :=
  negb (IsDir file)
  && bool_decide (is_Some (Stat os (filepath.Join_uploads (Name file)))).

(** Equality of bytes is decidable. *)
Global Instance byte_eq_decision : EqDecision byte := Byte.byte_eq_dec.

(** ** Requests handled one after the other *)

(** The two handlers [main] registers that act on the uploads directory:
    [POST /upload] and [GET /api/images]. *)
Inductive Request :=
| ReqUpload (c : Ctx)
| ReqList.

Definition handle (os : OS) (req : Request) (w : World) : Response * World :=
  match req with
  | ReqUpload c => handleImageUpload os c w
  | ReqList => getImageList os w
  end.

(** A run of requests, each with the environment it meets, served one
    after the other. *)
Fixpoint serve_all (reqs : list (OS * Request)) (w : World) : World :=
  match reqs with
  | [] => w
  | (os, req) :: rest => serve_all rest (handle os req w).2
  end.

(** A path directly inside the uploads directory whose file name holds none
    of the forbidden characters (so no [/] either). *)
Definition safe_upload_path (path : string) : Prop :=
  exists name,
    path = "uploads/" +:+ name
    /\ forall c, c ∈ list_ascii_of_string name -> c ∉ forbidden.

(** ** The gallery page (the Svelte component) *)

Module gallery.

(** What [await response.json()] gives: a rejection with an error message,
    or the JSON document. *)
Inductive JsonResult :=
| JsonRejects (message : string)
| JsonValue (v : Body).

(** What [await fetch(...)] gives: a rejection (network failure) with an
    error message, or a response with its status and body. *)
Inductive FetchOutcome :=
| FetchRejects (message : string)
| FetchResolves (status : Z) (json : JsonResult).

(** [response.ok]: the status is in the range 200 to 299. *)
Definition response_ok (status : Z) : bool :=
  (200 <=? status) && (status <=? 299).

(** The component's three variables; [error] is [null] ([None]) or a
    message. *)
Record State := {
  images : Body;
  loading : bool;
  error : option string
}.

(** [let images = []; let loading = true; let error = null;] *)
Definition initial : State :=
  {| images := JSONArray []; loading := true; error := None |}.

(** [fetchImages] up to its first [await]. *)
Definition fetch_begin (st : State) : State :=
  {| images := images st; loading := true; error := None |}.

(** [fetchImages] from the first [await] on: the rest of the [try], the
    [catch] and the [finally]. *)
Definition fetch_settle (st : State) (o : FetchOutcome) : State :=
  let caught (message : string) :=
    {| images := images st; loading := false; error := Some message |} in
  match o with
  | FetchRejects message => caught message
  | FetchResolves status json =>
      if negb (response_ok status) then caught "Failed to fetch images"
      else
        match json with
        | JsonRejects message => caught message
        | JsonValue v => {| images := v; loading := false; error := error st |}
        end
  end.

Definition fetchImages (st : State) (o : FetchOutcome) : State :=
  fetch_settle (fetch_begin st) o.

(** JavaScript truthiness of [error]: [null] and the empty string are
    falsy. *)
Definition truthy (e : option string) : bool :=
  match e with
  | Some message => negb (String.eqb message "")
  | None => false
  end.

(** [images.length === 0]; on an object [length] is an ordinary key. *)
Definition length_is_zero (v : Body) : bool :=
  match v with
  | JSONArray l => (length l =? 0)%nat
  | JSONMap m =>
      match m !! "length" with
      | Some (VInt 0) => true
      | _ => false
      end
  end.

(** The branch of the template that is rendered. *)
Inductive View :=
| LoadingState
| ErrorState (message : string)
| EmptyState
| Gallery (shown : Body).

(** [{#if loading} ... {:else if error} ... {:else if images.length === 0}
    ... {:else} ... {/if}] *)
Definition view (st : State) : View :=
  if loading st then LoadingState
  else if truthy (error st) then ErrorState (default "" (error st))
  else if length_is_zero (images st) then EmptyState
  else Gallery (images st).

(** One [art-card] of the [{#each images as image}] block: the image
    source and alternative text, the title and the description.  The date
    line, which depends on the browser's locale, is left out. *)
Record Card := {
  src : option Value;
  alt : option Value;
  art_title : option Value;
  art_description : option Value
}.

Definition card_of (image : gmap string Value) : Card :=
  {| src := image !! "url";
     alt := image !! "title";
     art_title := image !! "title";
     art_description := image !! "description" |}.

(** The outcome of the fetch when this server answers with [r]: [c.JSON]
    always sends a JSON document, and the body of [r] is that document with
    its strings as a parser reads them.  Numbers stay as the document has
    them: the page reads a number only for the date line, which is left
    out. *)
Definition answered (r : Response) : FetchOutcome :=
  FetchResolves (Status r) (JsonValue (body r)).

End gallery.

(** * Properties *)

(** ** The library models on sample inputs *)

Section samples.

Example ReplaceAll_space : strings.ReplaceAll "a b  c" " " "_" = "a_b__c".
Proof. reflexivity. Qed.

Example ReplaceAll_longer : strings.ReplaceAll "abcabcab" "abc" "xy" = "xyxyab".
Proof. reflexivity. Qed.

Example Ext_last_dot : filepath.Ext "dir.d/archive.tar.gz" = ".gz".
Proof. reflexivity. Qed.

Example Ext_no_dot : filepath.Ext "dir.d/README" = "".
Proof. reflexivity. Qed.

Example TrimSuffix_png : strings.TrimSuffix "17_cat.png" ".png" = "17_cat".
Proof. reflexivity. Qed.

Example TrimSuffix_other : strings.TrimSuffix "17_cat.png" ".jpg" = "17_cat.png".
Proof. reflexivity. Qed.

Example format_d_negative : format_d (-42) = "-42".
Proof. reflexivity. Qed.

Example decode_png_header :
  base64.DecodeString "iVBORw0KGgo="
  = Some [x89; x50; x4e; x47; x0d; x0a; x1a; x0a].
Proof. reflexivity. Qed.

Example decode_two_pads : base64.DecodeString "QQ==" = Some [x41].
Proof. reflexivity. Qed.

Example decode_missing_pad : base64.DecodeString "QQ=" = None.
Proof. reflexivity. Qed.

Example decode_percent : base64.DecodeString "%%%" = None.
Proof. reflexivity. Qed.

Example decode_empty : base64.DecodeString "" = Some [].
Proof. reflexivity. Qed.

Example string_of_euro :
  json.string_of (String "226" (String "130" (String "172" "5")))
  = String "226" (String "130" (String "172" "5")).
Proof. reflexivity. Qed.

Example string_of_lone_lead :
  json.string_of (String "a" (String "195" ".png")) = "a" +:+ utf8.RuneError +:+ ".png".
Proof. reflexivity. Qed.

Example string_of_cut_short :
  json.string_of (String "226" (String "130" EmptyString))
  = utf8.RuneError +:+ utf8.RuneError.
Proof. reflexivity. Qed.

Example string_of_overlong :
  json.string_of (String "192" (String "128" EmptyString))
  = utf8.RuneError +:+ utf8.RuneError.
Proof. reflexivity. Qed.

Example string_of_surrogate :
  json.string_of (String "237" (String "160" (String "128" EmptyString)))
  = utf8.RuneError +:+ utf8.RuneError +:+ utf8.RuneError.
Proof. reflexivity. Qed.

Example valid_last_code_point :
  utf8.ValidString (String "244" (String "143" (String "191" (String "191" EmptyString))))
  = true.
Proof. reflexivity. Qed.

Example invalid_above_last_code_point :
  utf8.ValidString (String "244" (String "144" (String "128" (String "128" EmptyString))))
  = false.
Proof. reflexivity. Qed.

Example sanitize_cut_title :
  sanitizeFilename cut_title
  = "aaaaaaaaaaaaaaaaaaaaaaaaaaaaaaaaaaaaaaaaaaaaaaaaa" +:+ String "195" EmptyString
  /\ utf8.ValidString cut_title = true
  /\ utf8.ValidString (sanitizeFilename cut_title) = false.
Proof. repeat split. Qed.

Example sanitize_sample :
  sanitizeFilename "My Photo: a/b" = "My_Photo-_a-b".
Proof. reflexivity. Qed.

End samples.

(** ** Strings *)

Section string_facts.

Lemma append_cons c s1 s2 : String c s1 +:+ s2 = String c (s1 +:+ s2).
Proof. reflexivity. Qed.

Lemma length_append s1 s2 :
  String.length (s1 +:+ s2) = (String.length s1 + String.length s2)%nat.
Proof.
  induction s1 as [|c s1 IH]; [reflexivity |].
  rewrite append_cons. cbn [String.length Nat.add]. now rewrite IH.
Qed.

Lemma append_assoc s1 s2 s3 : s1 +:+ (s2 +:+ s3) = (s1 +:+ s2) +:+ s3.
Proof.
  induction s1 as [|c s1 IH]; [reflexivity |].
  now rewrite !append_cons, IH.
Qed.

Lemma length_map_chars f s : String.length (map_chars f s) = String.length s.
Proof. induction s as [|c s IH]; simpl; [reflexivity | now rewrite IH]. Qed.

Lemma map_chars_compose f g s :
  map_chars f (map_chars g s) = map_chars (fun c => f (g c)) s.
Proof. induction s as [|c s IH]; simpl; [reflexivity | now rewrite IH]. Qed.

Lemma map_chars_ext f g s :
  (forall c, f c = g c) -> map_chars f s = map_chars g s.
Proof.
  intros Hfg. induction s as [|c s IH]; simpl; [reflexivity |].
  now rewrite Hfg, IH.
Qed.

Lemma chars_map_chars f s :
  list_ascii_of_string (map_chars f s) = f <$> list_ascii_of_string s.
Proof. induction s as [|c s IH]; simpl; [reflexivity | now rewrite IH]. Qed.

Lemma length_first_bytes n s :
  String.length (first_bytes n s) = Nat.min n (String.length s).
Proof.
  revert s. induction n as [|n IH]; intros [|c s]; simpl; try reflexivity.
  now rewrite IH.
Qed.

Lemma first_bytes_all n s :
  (String.length s <= n)%nat -> first_bytes n s = s.
Proof.
  revert s. induction n as [|n IH]; intros [|c s]; simpl; intros Hl;
    try reflexivity; try lia.
  rewrite IH; [reflexivity | lia].
Qed.

Lemma chars_first_bytes n s :
  list_ascii_of_string (first_bytes n s) = take n (list_ascii_of_string s).
Proof.
  revert s. induction n as [|n IH]; intros [|c s]; simpl; try reflexivity.
  now rewrite IH.
Qed.

Lemma substring_0 n s : String.substring 0 n s = first_bytes n s.
Proof.
  revert s. induction n as [|n IH]; intros [|c s]; simpl; try reflexivity.
  now rewrite IH.
Qed.

Lemma slice_to_first_bytes s hi : gostr.slice_to s hi = first_bytes hi s.
Proof.
  unfold gostr.slice_to, gostr.slice. rewrite Nat.sub_0_r. apply substring_0.
Qed.

(** Replacing a one-byte [old] by a one-byte [new] rewrites byte by byte. *)
Lemma ReplaceAll_byte s a b :
  strings.ReplaceAll s (String a EmptyString) (String b EmptyString)
  = map_chars (replace_byte a b) s.
Proof.
  unfold strings.ReplaceAll, replace_byte.
  induction s as [|c s IH]; [reflexivity |].
  cbn [strings.replace_scan String.prefix String.length Nat.pred map_chars].
  destruct (ascii_dec a c) as [->|Hne].
  - rewrite Ascii.eqb_refl.
    assert (Hp : String.prefix EmptyString s = true) by (destruct s; reflexivity).
    rewrite Hp. cbn. now rewrite IH.
  - destruct (Ascii.eqb_spec c a) as [->|_]; [congruence |]. now rewrite IH.
Qed.

End string_facts.

(** ** UTF-8 and the JSON encoding of strings *)

Section json_facts.

Lemma in_range_ascii lo hi c :
  utf8.is_ascii c = true -> (128 <= lo)%N -> utf8.in_range lo hi c = false.
Proof.
  unfold utf8.is_ascii, utf8.in_range. intros Hc Hlo.
  apply N.ltb_lt in Hc. apply andb_false_intro1, N.leb_gt. lia.
Qed.

Lemma tail_in_app lo hi x c b :
  utf8.is_ascii c = true -> (128 <= lo)%N ->
  utf8.tail_in lo hi (x +:+ String c b)
  = (fun t => t +:+ String c b) <$> utf8.tail_in lo hi x.
Proof.
  intros Hc Hlo. destruct x as [|d x].
  - change (EmptyString +:+ String c b) with (String c b).
    cbn [utf8.tail_in]. now rewrite in_range_ascii.
  - rewrite append_cons. cbn [utf8.tail_in].
    destruct (utf8.in_range lo hi d); reflexivity.
Qed.

Lemma conts_app n x c b :
  utf8.is_ascii c = true ->
  utf8.conts n (x +:+ String c b) = utf8.conts n x.
Proof.
  intros Hc. revert x. induction n as [|n IH]; intros x; [reflexivity |].
  cbn [utf8.conts]. rewrite tail_in_app by (exact Hc || lia).
  destruct (utf8.tail_in 128 191 x) as [t|]; cbn; [apply IH | reflexivity].
Qed.

Lemma rune_size_app d x c b :
  utf8.is_ascii c = true ->
  utf8.rune_size (String d x +:+ String c b) = utf8.rune_size (String d x).
Proof.
  intros Hc. rewrite append_cons. unfold utf8.rune_size.
  rewrite !conts_app by exact Hc.
  rewrite !tail_in_app by (exact Hc || lia).
  repeat match goal with
         | |- context [utf8.tail_in ?lo ?hi x] =>
             destruct (utf8.tail_in lo hi x); cbn [fmap option_fmap option_map]
         end;
    rewrite ?conts_app by exact Hc; reflexivity.
Qed.

Lemma tail_in_length lo hi s t :
  utf8.tail_in lo hi s = Some t -> String.length s = S (String.length t).
Proof.
  destruct s as [|c s]; cbn; [discriminate |].
  destruct (utf8.in_range lo hi c); [|discriminate]. now intros [= ->].
Qed.

Lemma conts_length n s : utf8.conts n s = true -> (n <= String.length s)%nat.
Proof.
  revert s. induction n as [|n IH]; intros s; cbn [utf8.conts]; [lia |].
  destruct (utf8.tail_in 128 191 s) as [t|] eqn:Ht; [|discriminate].
  intros Hn. apply IH in Hn. apply tail_in_length in Ht. lia.
Qed.

Lemma rune_size_length c s k :
  utf8.rune_size (String c s) = S k -> (k <= String.length s)%nat.
Proof.
  unfold utf8.rune_size.
  repeat match goal with
         | |- context [if ?b then _ else _] =>
             lazymatch b with
             | utf8.conts _ _ => fail
             | _ => destruct b
             end
         | |- context [match utf8.tail_in ?lo ?hi s with _ => _ end] =>
             let Ht := fresh "Ht" in
             destruct (utf8.tail_in lo hi s) eqn:Ht;
             [apply tail_in_length in Ht |]
         end;
    repeat match goal with
           | |- context [if utf8.conts ?n ?r then _ else _] =>
               let Hn := fresh "Hn" in
               destruct (utf8.conts n r) eqn:Hn; [apply conts_length in Hn |]
           end;
    intros [= <-] || discriminate; lia.
Qed.

Lemma rune_size_ascii c s : utf8.is_ascii c = true -> utf8.rune_size (String c s) = 1%nat.
Proof. intros Hc. cbn. now rewrite Hc. Qed.

(** An ASCII byte ends whatever precedes it: the encoding of a string is
    the encoding of its parts around that byte. *)
Lemma string_scan_0 c s :
  json.string_scan 0 (String c s)
  = match utf8.rune_size (String c s) with
    | O => utf8.RuneError +:+ json.string_scan 0 s
    | S k => String c (json.string_scan k s)
    end.
Proof. reflexivity. Qed.

Lemma string_scan_S k c s :
  json.string_scan (S k) (String c s) = String c (json.string_scan k s).
Proof. reflexivity. Qed.

Lemma string_scan_app k a c b :
  (k <= String.length a)%nat -> utf8.is_ascii c = true ->
  json.string_scan k (a +:+ String c b)
  = json.string_scan k a +:+ String c (json.string_scan 0 b).
Proof.
  intros Hk Hc. revert k Hk. induction a as [|d a IH]; intros k Hk.
  - cbn in Hk. replace k with 0%nat by lia.
    change (EmptyString +:+ String c b) with (String c b).
    rewrite string_scan_0, rune_size_ascii by exact Hc. reflexivity.
  - destruct k as [|k].
    + rewrite append_cons, !string_scan_0, <- append_cons.
      rewrite rune_size_app by exact Hc.
      destruct (utf8.rune_size (String d a)) as [|k] eqn:Hr.
      * rewrite IH by lia. apply append_assoc.
      * apply rune_size_length in Hr. rewrite IH by lia. reflexivity.
    + rewrite append_cons, !string_scan_S. cbn in Hk.
      rewrite IH by lia. reflexivity.
Qed.

Lemma string_of_app a c b :
  utf8.is_ascii c = true ->
  json.string_of (a +:+ String c b)
  = json.string_of a +:+ String c (json.string_of b).
Proof. intros Hc. apply string_scan_app; [lia | exact Hc]. Qed.

Lemma string_of_ascii_cons c s :
  utf8.is_ascii c = true -> json.string_of (String c s) = String c (json.string_of s).
Proof. intros Hc. apply (string_of_app EmptyString c s Hc). Qed.

Lemma valid_scan_id k s : utf8.valid_scan k s = true -> json.string_scan k s = s.
Proof.
  revert k. induction s as [|c s IH]; intros k; [reflexivity |].
  cbn [utf8.valid_scan json.string_scan]. destruct k as [|k].
  - destruct (utf8.rune_size (String c s)) as [|n]; [discriminate |].
    intros Hv. now rewrite IH.
  - intros Hv. now rewrite IH.
Qed.

Lemma length_string_scan k s :
  (String.length s <= String.length (json.string_scan k s))%nat.
Proof.
  revert k. induction s as [|c s IH]; intros k; [reflexivity |].
  cbn [json.string_scan]. destruct k as [|k].
  - destruct (utf8.rune_size (String c s)) as [|n].
    + rewrite length_append. specialize (IH 0%nat). cbn. lia.
    + specialize (IH n). cbn. lia.
  - specialize (IH k). cbn. lia.
Qed.

Lemma string_scan_id_valid k s : json.string_scan k s = s -> utf8.valid_scan k s = true.
Proof.
  revert k. induction s as [|c s IH]; intros k; [reflexivity |].
  cbn [utf8.valid_scan json.string_scan]. destruct k as [|k].
  - destruct (utf8.rune_size (String c s)) as [|n].
    + intros Heq. apply (f_equal String.length) in Heq.
      rewrite length_append in Heq. pose proof (length_string_scan 0 s).
      cbn in Heq. lia.
    + intros [= Heq]. now apply IH.
  - intros [= Heq]. now apply IH.
Qed.

Lemma ValidString_string_of s :
  utf8.ValidString s = true -> json.string_of s = s.
Proof. apply valid_scan_id. Qed.

(** A prefix of one-byte characters is carried as it is. *)
Lemma string_of_ascii_app a s :
  (forall c, c ∈ list_ascii_of_string a -> utf8.is_ascii c = true) ->
  json.string_of (a +:+ s) = a +:+ json.string_of s.
Proof.
  induction a as [|c a IH]; intros Ha; [reflexivity |].
  rewrite append_cons, string_of_ascii_cons by (apply Ha, list_elem_of_here).
  rewrite IH; [reflexivity |].
  intros d Hd. apply Ha. cbn. now apply list_elem_of_further.
Qed.

Lemma string_of_ascii a :
  (forall c, c ∈ list_ascii_of_string a -> utf8.is_ascii c = true) ->
  json.string_of a = a.
Proof.
  induction a as [|c a IH]; intros Ha; [reflexivity |].
  rewrite string_of_ascii_cons by (apply Ha, list_elem_of_here).
  rewrite IH; [reflexivity |].
  intros d Hd. apply Ha. cbn. now apply list_elem_of_further.
Qed.

(** Two strings of the same length in front of equal rests. *)
Lemma append_inj_length a b x y :
  String.length a = String.length b -> a +:+ x = b +:+ y -> a = b /\ x = y.
Proof.
  revert b. induction a as [|c a IH]; intros [|d b] Hl Heq;
    try discriminate Hl.
  - now split.
  - rewrite !append_cons in Heq. injection Heq as -> Heq.
    destruct (IH b) as [-> ->]; [now injection Hl | exact Heq | now split].
Qed.

(** If the whole carries over unchanged, so does what precedes a one-byte
    character in it. *)
Lemma string_of_prefix_id a c b :
  utf8.is_ascii c = true ->
  json.string_of (a +:+ String c b) = a +:+ String c b ->
  json.string_of a = a.
Proof.
  intros Hc Heq. rewrite string_of_app in Heq by exact Hc.
  pose proof (length_string_scan 0 a) as Ha.
  pose proof (length_string_scan 0 b) as Hb.
  fold (json.string_of a) in Ha. fold (json.string_of b) in Hb.
  pose proof (f_equal String.length Heq) as Hl.
  rewrite !length_append in Hl. cbn [String.length] in Hl.
  apply append_inj_length in Heq; [tauto | lia].
Qed.

Lemma json_object_error msg :
  json.object {[ "error" := VString msg; "success" := VBool false ]}
  = {[ "error" := VString (json.string_of msg); "success" := VBool false ]}.
Proof. reflexivity. Qed.

Lemma json_object_url url :
  json.object {[ "success" := VBool true; "url" := VString url ]}
  = {[ "success" := VBool true; "url" := VString (json.string_of url) ]}.
Proof. reflexivity. Qed.

End json_facts.

(** ** The sanitizer *)

Section sanitizer.

(** The ten replacements, done one after the other, amount to one pass
    with [sanitize_char]. *)
Lemma ten_replacements c :
  replace_byte "|" "-" (replace_byte ">" "-" (replace_byte "<" "-"
    (replace_byte "034" "-" (replace_byte "?" "-" (replace_byte "*" "-"
      (replace_byte ":" "-" (replace_byte "\" "-" (replace_byte "/" "-"
        (replace_byte " " "_" c)))))))))
  = sanitize_char c.
Proof. destruct c as [[] [] [] [] [] [] [] []]; vm_compute; reflexivity. Qed.

Lemma sanitize_char_not_forbidden c : sanitize_char c ∉ forbidden.
Proof.
  destruct c as [[] [] [] [] [] [] [] []];
    apply (bool_decide_unpack _); vm_compute; reflexivity.
Qed.

Lemma sanitizeFilename_refines title :
  sanitizeFilename title = sanitize_spec title.
Proof.
  unfold sanitizeFilename, sanitize_spec.
  rewrite !ReplaceAll_byte, !map_chars_compose.
  rewrite (map_chars_ext _ sanitize_char) by (intros c; apply ten_replacements).
  rewrite slice_to_first_bytes. unfold gostr.len.
  destruct (Nat.ltb_spec 50 (String.length (map_chars sanitize_char title)))
    as [_|Hle]; [reflexivity |].
  now rewrite first_bytes_all.
Qed.

Lemma sanitizeFilename_length title :
  String.length (sanitizeFilename title) = Nat.min (String.length title) 50.
Proof.
  rewrite sanitizeFilename_refines. unfold sanitize_spec.
  rewrite length_first_bytes, length_map_chars. apply Nat.min_comm.
Qed.

Lemma sanitizeFilename_empty title :
  sanitizeFilename title = EmptyString <-> title = EmptyString.
Proof.
  split.
  - intros H. pose proof (sanitizeFilename_length title) as Hl.
    rewrite H in Hl. destruct title; [reflexivity | simpl in Hl; lia].
  - intros ->. reflexivity.
Qed.

End sanitizer.

Section sanitizer_claims.

Lemma sanitizeFilename_chars title c :
  c ∈ list_ascii_of_string (sanitizeFilename title) -> c ∉ forbidden.
Proof.
  rewrite sanitizeFilename_refines. unfold sanitize_spec.
  rewrite chars_first_bytes, chars_map_chars.
  intros Hin. apply elem_of_take in Hin as (i & Hi & _).
  apply list_lookup_fmap_Some in Hi as (c0 & -> & _).
  apply sanitize_char_not_forbidden.
Qed.

(** C3.  For every input string the sanitizer is the specification's
    algorithm: every byte is rewritten by [sanitize_char] (space to [_],
    the nine other forbidden characters to [-], anything else kept) and
    the result is cut to its first 50 bytes.  Hence the output holds none
    of the ten forbidden characters, is at most 50 bytes long, and equal
    inputs give equal outputs. *)
Theorem sanitizeFilename_spec (title : string) :
  sanitizeFilename title = first_bytes 50 (map_chars sanitize_char title)
  /\ (forall c, c ∈ list_ascii_of_string (sanitizeFilename title) -> c ∉ forbidden)
  /\ (String.length (sanitizeFilename title) <= 50)%nat
  /\ (forall title', title' = title -> sanitizeFilename title' = sanitizeFilename title).
Proof.
  split; [apply sanitizeFilename_refines |].
  split; [intros c; apply sanitizeFilename_chars |].
  split; [rewrite sanitizeFilename_length; lia |].
  intros title' ->. reflexivity.
Qed.

(** C8.  The output of the sanitizer is exactly [min (len t) 50] bytes
    long, so it is empty if and only if [t] is empty, and the upload
    handler takes its [image] branch exactly for the empty title: any
    other title is used in its sanitized form. *)
Theorem sanitizeFilename_length_exact (t : string) :
  String.length (sanitizeFilename t) = Nat.min (String.length t) 50
  /\ (sanitizeFilename t = "" <-> t = "")
  /\ (String.eqb (sanitizeFilename t) "" = true <-> t = "")
  /\ title_part t = (if decide (t = "") then "image" else sanitizeFilename t).
Proof.
  split; [apply sanitizeFilename_length |].
  split; [apply sanitizeFilename_empty |].
  split; [rewrite String.eqb_eq; apply sanitizeFilename_empty |].
  unfold title_part. destruct (decide (t = "")) as [->|Hne]; [reflexivity |].
  destruct (String.eqb_spec (sanitizeFilename t) "") as [He|_]; [|reflexivity].
  exfalso. apply Hne, sanitizeFilename_empty, He.
Qed.

(** C5, as the code has it.  The empty title is the only one replaced by
    [image].  A non-empty title made of forbidden characters only is
    sanitized to a non-empty string of [_] and [-], and that string, not
    [image], is the file-name component. *)
Theorem title_part_forbidden_only (title : string) :
  (title = "" -> sanitizeFilename title = "" /\ title_part title = "image")
  /\ (title <> "" ->
      (forall c, c ∈ list_ascii_of_string title -> c ∈ forbidden) ->
      title_part title = sanitizeFilename title
      /\ title_part title <> ""
      /\ title_part title <> "image"
      /\ (forall c, c ∈ list_ascii_of_string (title_part title) ->
          c = "_"%char \/ c = "-"%char)).
Proof.
  split; [intros ->; split; reflexivity |].
  intros Hne Hall.
  pose proof (sanitizeFilename_empty title) as Hemp.
  assert (Htp : title_part title
                = if decide (title = "") then "image" else sanitizeFilename title).
  { unfold title_part. destruct (decide (title = "")) as [->|Hn]; [reflexivity |].
    destruct (String.eqb_spec (sanitizeFilename title) "") as [He|_]; [|reflexivity].
    exfalso. apply Hn, Hemp, He. }
  rewrite Htp. destruct (decide (title = "")) as [?|_]; [contradiction |].
  assert (Hchars : forall c, c ∈ list_ascii_of_string (sanitizeFilename title) ->
                             c = "_"%char \/ c = "-"%char).
  { intros c. rewrite sanitizeFilename_refines. unfold sanitize_spec.
    rewrite chars_first_bytes, chars_map_chars.
    intros Hin. apply elem_of_take in Hin as (i & Hi & _).
    apply list_lookup_fmap_Some in Hi as (c0 & -> & Hc0).
    apply list_elem_of_lookup_2, Hall in Hc0.
    unfold sanitize_char. destruct (Ascii.eqb c0 " "); [now left |].
    rewrite bool_decide_eq_true_2 by exact Hc0. now right. }
  split; [reflexivity |].
  split; [rewrite Hemp; exact Hne |].
  split; [|exact Hchars].
  intros Him.
  assert (Hi : "i"%char ∈ list_ascii_of_string (sanitizeFilename title))
    by (rewrite Him; cbn; apply list_elem_of_here).
  destruct (Hchars _ Hi) as [E|E]; discriminate E.
Qed.

Lemma title_part_forbidden_only_witness :
  " /?" <> ""
  /\ (forall c, c ∈ list_ascii_of_string " /?" -> c ∈ forbidden)
  /\ title_part " /?" = "_--"
  /\ title_part " /?" <> "image".
Proof.
  assert (Hne : " /?" <> "") by discriminate.
  assert (Hall : forall c, c ∈ list_ascii_of_string " /?" -> c ∈ forbidden)
    by (apply Forall_forall, (bool_decide_unpack _); vm_compute; reflexivity).
  destruct (proj2 (title_part_forbidden_only " /?") Hne Hall) as (H1 & _ & H3 & _).
  split; [exact Hne |]. split; [exact Hall |].
  split; [rewrite H1; reflexivity | exact H3].
Defined.

(** C5 as stated fails: the title consisting of one space is made of
    forbidden characters only, yet its file-name component is [_]. *)
Lemma title_part_space_not_image :
  (forall c, c ∈ list_ascii_of_string " " -> c ∈ forbidden)
  /\ sanitizeFilename " " = "_"
  /\ title_part " " = "_"
  /\ title_part " " <> "image"
  /\ upload_filename 1700000000 " " [] = "1700000000__.jpg".
Proof.
  split; [|repeat split; try reflexivity; discriminate].
  apply Forall_forall, (bool_decide_unpack _); vm_compute; reflexivity.
Qed.

End sanitizer_claims.

(** ** The format detection *)

Section sniffer.

Lemma byte_eqb_true_iff (a b : byte) : Byte.eqb a b = true <-> a = b.
Proof. split; [apply Byte.byte_dec_bl | apply Byte.byte_dec_lb]. Qed.

(** Turns a successful conjunction of byte tests into equations and
    substitutes them. *)
Ltac bytes_of E :=
  repeat match type of E with
         | (_ && _) = true =>
             let E' := fresh "E" in
             apply andb_prop in E as [E E'];
             apply byte_eqb_true_iff in E'; subst
         | Byte.eqb _ _ = true => apply byte_eqb_true_iff in E; subst
         end.

(** On four bytes or more the detection is a function of the first four. *)
Lemma fileExt_cons4 b0 b1 b2 b3 rest :
  fileExt (b0 :: b1 :: b2 :: b3 :: rest) = fileExt [b0; b1; b2; b3].
Proof. reflexivity. Qed.

Lemma fileExt_short (data : list byte) :
  (length data < 4)%nat -> fileExt data = ".jpg".
Proof.
  intros Hl. unfold fileExt.
  destruct (Nat.leb_spec 4 (length data)) as [Hge|_]; [lia | reflexivity].
Qed.

Lemma fileExt_range (data : list byte) :
  fileExt data ∈ [".jpg"; ".png"; ".gif"; ".webp"].
Proof.
  unfold fileExt.
  repeat match goal with
         | |- context [if ?b then _ else _] => destruct b
         end;
    apply (bool_decide_unpack _); vm_compute; reflexivity.
Qed.

(** C2.  The detection returns [.jpg] on at least four bytes starting
    [FF D8], [.png] on a start [89 50 4E 47], [.gif] on at least four bytes
    starting [47 49 46], [.webp] on a start [52 49 46 46], and the default
    [.jpg] on fewer than four bytes and on any start that is none of
    these.  It is total and its value is always one of the four
    extensions. *)
Theorem fileExt_spec (data : list byte) :
  ((4 <= length data)%nat -> [xff; xd8] `prefix_of` data -> fileExt data = ".jpg")
  /\ ([x89; x50; x4e; x47] `prefix_of` data -> fileExt data = ".png")
  /\ ((4 <= length data)%nat -> [x47; x49; x46] `prefix_of` data ->
      fileExt data = ".gif")
  /\ ([x52; x49; x46; x46] `prefix_of` data -> fileExt data = ".webp")
  /\ ((length data < 4)%nat -> fileExt data = ".jpg")
  /\ (~ [xff; xd8] `prefix_of` data ->
      ~ [x89; x50; x4e; x47] `prefix_of` data ->
      ~ [x47; x49; x46] `prefix_of` data ->
      ~ [x52; x49; x46; x46] `prefix_of` data ->
      fileExt data = ".jpg")
  /\ fileExt data ∈ [".jpg"; ".png"; ".gif"; ".webp"].
Proof.
  split; [intros Hl [k ->]|].
  { destruct k as [|b2 [|b3 k]]; simpl in Hl; try lia. reflexivity. }
  split; [intros [k ->]; reflexivity|].
  split; [intros Hl [k ->]|].
  { destruct k as [|b3 k]; simpl in Hl; try lia. reflexivity. }
  split; [intros [k ->]; reflexivity|].
  split; [apply fileExt_short|].
  split; [|apply fileExt_range].
  intros Hjpg Hpng Hgif Hwebp.
  destruct data as [|b0 [|b1 [|b2 [|b3 rest]]]]; try reflexivity.
  rewrite fileExt_cons4. unfold fileExt, at_index. cbn [length Nat.leb nth].
  destruct (Byte.eqb b0 xff && Byte.eqb b1 xd8) eqn:E1.
  { exfalso. apply Hjpg. bytes_of E1. now exists (b2 :: b3 :: rest). }
  destruct (Byte.eqb b0 x89 && Byte.eqb b1 x50 && Byte.eqb b2 x4e && Byte.eqb b3 x47)
    eqn:E2.
  { exfalso. apply Hpng. bytes_of E2. now exists rest. }
  destruct (Byte.eqb b0 x47 && Byte.eqb b1 x49 && Byte.eqb b2 x46) eqn:E3.
  { exfalso. apply Hgif. bytes_of E3. now exists (b3 :: rest). }
  destruct (Byte.eqb b0 x52 && Byte.eqb b1 x49 && Byte.eqb b2 x46 && Byte.eqb b3 x46)
    eqn:E4.
  { exfalso. apply Hwebp. bytes_of E4. now exists rest. }
  reflexivity.
Qed.

Lemma fileExt_spec_witness :
  fileExt [x47; x49; x46; x38; x39; x61] = ".gif"
  /\ fileExt [x47; x49; x46] = ".jpg"
  /\ fileExt [x00; x01; x02; x03; x04] = ".jpg".
Proof.
  split; [|split].
  - apply (proj1 (proj2 (proj2 (fileExt_spec [x47; x49; x46; x38; x39; x61])))).
    + simpl; lia.
    + now exists [x38; x39; x61].
  - apply (proj1 (proj2 (proj2 (proj2 (proj2 (fileExt_spec [x47; x49; x46])))))).
    simpl; lia.
  - apply (proj1 (proj2 (proj2 (proj2 (proj2 (proj2
             (fileExt_spec [x00; x01; x02; x03; x04]))))))).
    all: intros [k Hk]; discriminate Hk.
Defined.

(** C10.  Two byte sequences of at least four bytes that agree on their
    first four bytes get the same extension. *)
Theorem fileExt_first_four (d1 d2 : list byte) :
  (4 <= length d1)%nat -> (4 <= length d2)%nat ->
  take 4 d1 = take 4 d2 ->
  fileExt d1 = fileExt d2.
Proof.
  intros H1 H2 Heq.
  destruct d1 as [|a0 [|a1 [|a2 [|a3 r1]]]]; simpl in H1; try lia.
  destruct d2 as [|b0 [|b1 [|b2 [|b3 r2]]]]; simpl in H2; try lia.
  rewrite (fileExt_cons4 a0), (fileExt_cons4 b0).
  cbn [take] in Heq. injection Heq as -> -> -> ->. reflexivity.
Qed.

Lemma fileExt_first_four_witness :
  fileExt [x89; x50; x4e; x47; x0d; x0a] = fileExt [x89; x50; x4e; x47; xff; xd8; x00].
Proof.
  apply fileExt_first_four; [simpl; lia | simpl; lia | reflexivity].
Defined.

End sniffer.

(** ** The listing handler *)

Section listing.

Lemma omap_cons {A B} (f : A -> option B) x l :
  omap f (x :: l)
  = match f x with Some y => y :: omap f l | None => omap f l end.
Proof. reflexivity. Qed.

Lemma listed_eq os file :
  listed os file
  = if IsDir file then None
    else (fun fileInfo => json.object (image_of file fileInfo))
           <$> Stat os (filepath.Join_uploads (Name file)).
Proof. reflexivity. Qed.

Lemma listed_built os file : listed os file = json.object <$> built os file.
Proof.
  unfold listed, built. destruct (IsDir file); [reflexivity |].
  destruct (Stat os (filepath.Join_uploads (Name file))); reflexivity.
Qed.

Lemma omap_listed os (entries : list FileInfo) :
  omap (listed os) entries = json.object <$> omap (built os) entries.
Proof.
  induction entries as [|file rest IH]; [reflexivity |].
  rewrite !omap_cons, listed_built.
  destruct (built os file); cbn [fmap option_fmap option_map list_fmap];
    now rewrite IH.
Qed.

Lemma list_loop_images os entries images w :
  (list_loop os entries images w).1 = images ++ omap (built os) entries.
Proof.
  revert images w. induction entries as [|file rest IH]; intros images w.
  - cbn. now rewrite app_nil_r.
  - rewrite omap_cons. unfold built at 1. cbn [list_loop].
    destruct (IsDir file); cbn [negb]; [apply IH |].
    destruct (Stat os (filepath.Join_uploads (Name file))) as [info|]; cbn.
    + rewrite IH, <- app_assoc. reflexivity.
    + apply IH.
Qed.

Lemma list_loop_files os entries images w :
  files (list_loop os entries images w).2 = files w.
Proof.
  revert images w. induction entries as [|file rest IH]; intros images w;
    [reflexivity |].
  cbn [list_loop]. destruct (IsDir file); cbn [negb]; [apply IH |].
  destruct (Stat os (filepath.Join_uploads (Name file))); rewrite IH; reflexivity.
Qed.

(** Once the directory was read the answer is 200 with the records of the
    entries that are files and whose metadata could be read, in order. *)
Lemma getImageList_ok os w entries :
  ReadDir_uploads os = Some entries ->
  (getImageList os w).1
  = {| Status := 200; body := JSONArray (omap (listed os) entries) |}.
Proof.
  intros Hrd. unfold getImageList. rewrite Hrd.
  pose proof (list_loop_images os entries [] w) as Himg.
  destruct (list_loop os entries [] w) as [images w']. cbn in Himg. subst images.
  rewrite omap_listed.
  destruct (omap (built os) entries) as [|m l]; reflexivity.
Qed.

Lemma getImageList_failed os w :
  ReadDir_uploads os = None ->
  (getImageList os w).1
  = {| Status := 500;
       body := JSONMap {[ "error" := VString "Failed to read uploads directory";
                          "success" := VBool false ]} |}.
Proof. intros Hrd. unfold getImageList. rewrite Hrd. reflexivity. Qed.

(** The listing never touches the stored files. *)
Lemma getImageList_files os w : files (getImageList os w).2 = files w.
Proof.
  unfold getImageList. destruct (ReadDir_uploads os) as [entries|]; [|reflexivity].
  pose proof (list_loop_files os entries [] w) as Hf.
  destruct (list_loop os entries [] w) as [images w'].
  destruct (length images =? 0)%nat; exact Hf.
Qed.

(** C7.  An empty directory is answered with status 200 and the empty
    array.  The answer is the 500 response [Failed to read uploads
    directory] exactly when [ReadDir] failed; in every other case the
    status is 200. *)
Theorem getImageList_status (os : OS) (w : World) :
  (ReadDir_uploads os = Some [] ->
   (getImageList os w).1 = {| Status := 200; body := JSONArray [] |})
  /\ ((getImageList os w).1
      = {| Status := 500;
           body := JSONMap {[ "error" := VString "Failed to read uploads directory";
                              "success" := VBool false ]} |}
      <-> ReadDir_uploads os = None)
  /\ (Status (getImageList os w).1 = 500 <-> ReadDir_uploads os = None)
  /\ (ReadDir_uploads os <> None -> Status (getImageList os w).1 = 200).
Proof.
  split; [intros Hrd; now rewrite (getImageList_ok _ _ _ Hrd) |].
  destruct (ReadDir_uploads os) as [entries|] eqn:Hrd.
  - rewrite (getImageList_ok _ _ _ Hrd). cbn.
    repeat split; try discriminate; reflexivity.
  - rewrite (getImageList_failed _ _ Hrd). cbn.
    repeat split; try reflexivity. intros Hne. now destruct Hne.
Qed.

Lemma getImageList_status_witness :
  (getImageList (with_entries os_healthy []) empty_world).1
  = {| Status := 200; body := JSONArray [] |}
  /\ Status (getImageList os_healthy empty_world).1 = 200.
Proof.
  split.
  - apply (proj1 (getImageList_status (with_entries os_healthy []) empty_world)).
    reflexivity.
  - apply (proj2 (proj2 (proj2 (getImageList_status os_healthy empty_world)))).
    discriminate.
Defined.

(** C9.  If the directory was read and [os.Stat] fails on one of its
    file entries, the answer is still 200, it holds the records of the
    remaining entries, and it is the answer the handler gives for the
    directory without that entry.  Whatever [os.Stat] answers, the status
    after a successful [ReadDir] is 200. *)
Theorem stat_failure_skipped (os : OS) (w : World)
    (before : list FileInfo) (file : FileInfo) (after : list FileInfo) :
  ReadDir_uploads os = Some (before ++ file :: after) ->
  IsDir file = false ->
  Stat os (filepath.Join_uploads (Name file)) = None ->
  (getImageList os w).1
  = {| Status := 200;
       body := JSONArray (omap (listed os) before ++ omap (listed os) after) |}
  /\ (getImageList os w).1 = (getImageList (with_entries os (before ++ after)) w).1
  /\ (forall stat' : string -> option FileInfo,
        Status (getImageList {| Now := Now os; write_result := write_result os;
                                ReadDir_uploads := ReadDir_uploads os;
                                Stat := stat' |} w).1 = 200).
Proof.
  intros Hrd Hfile Hstat.
  assert (Hskip : omap (listed os) (before ++ file :: after)
                  = omap (listed os) before ++ omap (listed os) after).
  { rewrite omap_app, omap_cons, (listed_eq os file), Hfile, Hstat. reflexivity. }
  split; [rewrite (getImageList_ok _ _ _ Hrd), Hskip; reflexivity |].
  split.
  - rewrite (getImageList_ok _ _ _ Hrd), Hskip.
    rewrite (getImageList_ok (with_entries os (before ++ after)) w (before ++ after))
      by reflexivity.
    rewrite omap_app. reflexivity.
  - intros stat'.
    erewrite getImageList_ok by (cbn; exact Hrd). reflexivity.
Qed.

Lemma stat_failure_skipped_witness :
  (getImageList os_unreadable empty_world).1
  = {| Status := 200; body := JSONArray [] |}.
Proof.
  apply (proj1 (stat_failure_skipped os_unreadable empty_world [] sample_entry []
                  eq_refl eq_refl eq_refl)).
Defined.

End listing.

(** ** File-name extensions *)

Section extension.

Lemma first_drop_bytes n s : first_bytes n s +:+ drop_bytes n s = s.
Proof.
  revert s. induction n as [|n IH]; intros [|c s]; try reflexivity.
  cbn [first_bytes drop_bytes]. now rewrite append_cons, IH.
Qed.

Lemma length_drop_bytes n s :
  String.length (drop_bytes n s) = (String.length s - n)%nat.
Proof.
  revert s. induction n as [|n IH]; intros [|c s]; cbn; try reflexivity.
  apply IH.
Qed.

Lemma substring_to_end n s :
  (n <= String.length s)%nat ->
  String.substring n (String.length s - n) s = drop_bytes n s.
Proof.
  revert s. induction n as [|n IH]; intros s Hn.
  - rewrite Nat.sub_0_r, substring_0, first_bytes_all by lia.
    destruct s; reflexivity.
  - destruct s as [|c s]; cbn in Hn; [lia |]. cbn. apply IH. lia.
Qed.

Lemma slice_from_drop_bytes s lo :
  (lo <= String.length s)%nat -> gostr.slice_from s lo = drop_bytes lo s.
Proof. intros Hlo. now apply substring_to_end. Qed.

(** [Ext] returns a suffix of its argument. *)
Lemma ext_scan_suffix path n :
  (n <= String.length path)%nat ->
  exists i, (i <= String.length path)%nat
            /\ filepath.ext_scan path n = drop_bytes i path.
Proof.
  intros Hn.
  assert (Hnone : exists i, (i <= String.length path)%nat
                            /\ EmptyString = drop_bytes i path).
  { exists (String.length path). split; [lia |].
    pose proof (length_drop_bytes (String.length path) path) as Hl.
    rewrite Nat.sub_diag in Hl.
    destruct (drop_bytes (String.length path) path); [reflexivity | discriminate]. }
  induction n as [|i IH]; cbn [filepath.ext_scan]; [exact Hnone |].
  destruct (String.get i path) as [c|]; [|exact Hnone].
  destruct (filepath.IsPathSeparator c); [exact Hnone |].
  destruct (Ascii.eqb c "."); [|apply IH; lia].
  exists i. split; [lia |]. apply slice_from_drop_bytes. lia.
Qed.

Lemma TrimSuffix_drop_bytes s i :
  (i <= String.length s)%nat ->
  strings.TrimSuffix s (drop_bytes i s) = first_bytes i s.
Proof.
  intros Hi. unfold strings.TrimSuffix, strings.HasSuffix, gostr.len.
  rewrite length_drop_bytes.
  replace (String.length s - (String.length s - i))%nat with i by lia.
  rewrite slice_from_drop_bytes by exact Hi.
  rewrite String.eqb_refl, andb_true_r.
  destruct (Nat.leb_spec (String.length s - i) (String.length s)) as [_|Hlt]; [|lia].
  apply slice_to_first_bytes.
Qed.

(** Stripping the extension and putting it back gives the name again. *)
Lemma TrimSuffix_Ext name :
  name = strings.TrimSuffix name (filepath.Ext name) +:+ filepath.Ext name.
Proof.
  destruct (ext_scan_suffix name (String.length name)) as (i & Hi & He); [lia |].
  unfold filepath.Ext, gostr.len. rewrite He.
  rewrite TrimSuffix_drop_bytes by exact Hi.
  symmetry. apply first_drop_bytes.
Qed.

End extension.

(** ** The records of the listing *)

Section records.

Lemma image_of_name file info :
  image_of file info !! "name" = Some (VString (Name file)).
Proof. reflexivity. Qed.

Lemma image_of_title file info :
  image_of file info !! "title"
  = Some (VString (strings.TrimSuffix (Name file) (filepath.Ext (Name file)))).
Proof. reflexivity. Qed.

Lemma image_of_description file info :
  image_of file info !! "description" = Some (VString "Uploaded image").
Proof. reflexivity. Qed.

(** The fields of a record as the answer carries them. *)
Lemma json_image_of file info :
  json.object (image_of file info)
  = {[ "name" := VString (json.string_of (Name file));
       "size" := VInt (Size info);
       "upload_time" := VInt (ModTime info);
       "title" := VString (json.string_of
                             (strings.TrimSuffix (Name file) (filepath.Ext (Name file))));
       "description" := VString "Uploaded image";
       "url" := VString (json.string_of
                           ("http://localhost:5174/uploads/" +:+ Name file)) ]}.
Proof. reflexivity. Qed.

Lemma append_empty_r s : s +:+ "" = s.
Proof.
  induction s as [|c s IH]; [reflexivity |]. now rewrite append_cons, IH.
Qed.

Lemma get_drop_bytes i s c :
  String.get i s = Some c -> exists rest, drop_bytes i s = String c rest.
Proof.
  revert s. induction i as [|i IH]; intros [|d s] Hget; cbn in Hget;
    try discriminate.
  - injection Hget as ->. now eexists.
  - cbn [drop_bytes]. now apply IH.
Qed.

(** An extension is empty or begins with the dot. *)
Lemma ext_scan_dot path n :
  (n <= String.length path)%nat ->
  filepath.ext_scan path n = ""
  \/ exists e, filepath.ext_scan path n = String "." e.
Proof.
  intros Hn. induction n as [|i IH]; cbn [filepath.ext_scan]; [now left |].
  destruct (String.get i path) as [c|] eqn:Hget; [|now left].
  destruct (filepath.IsPathSeparator c); [now left |].
  destruct (Ascii.eqb_spec c ".") as [->|_]; [|apply IH; lia].
  right. rewrite slice_from_drop_bytes by lia.
  now apply get_drop_bytes.
Qed.

(** If JSON carries a name as it is, it carries its stem as it is. *)
Lemma string_of_stem name :
  json.string_of name = name ->
  json.string_of (strings.TrimSuffix name (filepath.Ext name))
  = strings.TrimSuffix name (filepath.Ext name).
Proof.
  intros Hname. pose proof (TrimSuffix_Ext name) as Hsplit.
  set (stem := strings.TrimSuffix name (filepath.Ext name)) in *.
  destruct (ext_scan_dot name (String.length name)) as [He|[e He]]; [lia | |];
    fold (gostr.len name) in He; fold (filepath.Ext name) in He;
    rewrite He in Hsplit.
  - rewrite append_empty_r in Hsplit. now rewrite <- Hsplit.
  - apply (string_of_prefix_id stem "." e); [reflexivity |].
    now rewrite <- Hsplit.
Qed.

Lemma image_of_record_for file info :
  record_for file (json.object (image_of file info)).
Proof.
  exists (strings.TrimSuffix (Name file) (filepath.Ext (Name file))).
  rewrite json_image_of.
  split; [reflexivity |].
  split; [apply TrimSuffix_Ext |].
  split; [reflexivity |]. split; [reflexivity |]. split; [reflexivity |].
  intros Hvalid. apply ValidString_string_of in Hvalid.
  rewrite (string_of_stem _ Hvalid), Hvalid. split; reflexivity.
Qed.

Lemma listed_is_listed os file :
  is_Some (listed os file) <-> is_listed os file = true.
Proof.
  rewrite listed_eq. unfold is_listed.
  destruct (IsDir file); cbn [negb andb].
  - split; [intros [m Hm]; discriminate Hm | discriminate].
  - rewrite bool_decide_eq_true.
    destruct (Stat os (filepath.Join_uploads (Name file))) as [info|]; cbn.
    + split; intros _; eexists; reflexivity.
    + split; intros [x Hx]; discriminate Hx.
Qed.

Lemma listed_record_for os file m : listed os file = Some m -> record_for file m.
Proof.
  rewrite listed_eq. destruct (IsDir file); [discriminate |].
  destruct (Stat os (filepath.Join_uploads (Name file))) as [info|];
    [|discriminate].
  intros [= <-]. apply image_of_record_for.
Qed.

(** The records stand, one for one and in order, against the entries that
    are files with readable metadata. *)
Lemma listed_records os (entries : list FileInfo) :
  Forall2 record_for
    (filter (fun file => is_listed os file = true) entries)
    (omap (listed os) entries).
Proof.
  induction entries as [|file rest IH]; [constructor |].
  rewrite omap_cons, filter_cons.
  destruct (listed os file) as [m|] eqn:Hl.
  - rewrite decide_True by (apply listed_is_listed; rewrite Hl; now eexists).
    constructor; [now apply (listed_record_for os) | exact IH].
  - rewrite decide_False; [exact IH |].
    intros Hc. apply listed_is_listed in Hc as [m Hm]. congruence.
Qed.

(** C6, as the code has it.  For every state of the directory: if it
    cannot be read the answer is the 500 response and holds no record;
    otherwise the answer holds exactly one record, in directory order, for
    each entry that is not a directory and whose metadata [os.Stat] could
    read, and no other record.  Each record carries as title the file name
    without its extension and as description the fixed text, the title and
    the name being carried as JSON encodes them: they are the title and
    name themselves when the name is valid UTF-8.  The handler has no
    access to the title and the description that were submitted: its
    answer is a function of the directory alone. *)
Theorem listing_records (os : OS) (w : World) :
  match ReadDir_uploads os with
  | None =>
      (getImageList os w).1
      = {| Status := 500;
           body := JSONMap {[ "error" := VString "Failed to read uploads directory";
                              "success" := VBool false ]} |}
  | Some entries =>
      exists images,
        (getImageList os w).1 = {| Status := 200; body := JSONArray images |}
        /\ images = omap (listed os) entries
        /\ Forall2 record_for
             (filter (fun file => is_listed os file = true) entries) images
  end.
Proof.
  destruct (ReadDir_uploads os) as [entries|] eqn:Hrd.
  - exists (omap (listed os) entries).
    split; [now apply getImageList_ok |].
    split; [reflexivity | apply listed_records].
  - now apply getImageList_failed.
Qed.

Lemma listing_records_witness :
  exists images,
    (getImageList os_healthy empty_world).1
    = {| Status := 200; body := JSONArray images |}
    /\ images = omap (listed os_healthy) [sample_dir; sample_entry]
    /\ Forall2 record_for [sample_entry] images.
Proof.
  exact (listing_records os_healthy empty_world).
Defined.

(** C6 as stated fails: the directory of [os_unreadable] has an entry
    that is not a directory, and the answer holds no record at all. *)
Lemma listing_unreadable_entry :
  ReadDir_uploads os_unreadable = Some [sample_entry]
  /\ IsDir sample_entry = false
  /\ (getImageList os_unreadable empty_world).1
     = {| Status := 200; body := JSONArray [] |}.
Proof. repeat split. Qed.

End records.

(** ** The upload handler *)

Section upload.

Lemma title_part_decide title :
  title_part title
  = if decide (sanitizeFilename title = "") then "image" else sanitizeFilename title.
Proof.
  unfold title_part.
  destruct (String.eqb_spec (sanitizeFilename title) ""), (decide (sanitizeFilename title = ""));
    try reflexivity; contradiction.
Qed.

(** The handler answers 200 only when all four steps went through. *)
Lemma upload_success_only os c w :
  Status (handleImageUpload os c w).1 = 200 ->
  exists payload imageData,
    BodyParser c = Some payload
    /\ Image payload <> ""
    /\ base64.DecodeString (Image payload) = Some imageData
    /\ write_result os
         ("uploads/" +:+ upload_filename (Now os) (Title payload) imageData)
         imageData = WriteOk.
Proof.
  unfold handleImageUpload.
  destruct (BodyParser c) as [payload|]; [|discriminate].
  destruct (String.eqb_spec (Image payload) "") as [|Hne]; [discriminate |].
  destruct (base64.DecodeString (Image payload)) as [imageData|] eqn:Hdec;
    [|discriminate].
  cbn zeta. unfold WriteFile, filepath.Join_uploads.
  destruct (write_result os _ imageData) as [|[d|]] eqn:Hw; try discriminate.
  intros _. exists payload, imageData.
  split; [reflexivity |]. split; [exact Hne |]. split; [exact Hdec | exact Hw].
Qed.

(** C4.  With a parsed body, an empty image field is answered 400
    [Image data is required], and an image field that is not base64, such
    as [%%%], is answered 400 [Invalid base64 image data]; in both cases
    the stored files are what they were. *)
Theorem upload_rejected (os : OS) (c : Ctx) (w : World) (payload : ImagePayload) :
  BodyParser c = Some payload ->
  (Image payload = "" ->
   (handleImageUpload os c w).1
   = {| Status := 400;
        body := JSONMap {[ "error" := VString "Image data is required";
                           "success" := VBool false ]} |}
   /\ files (handleImageUpload os c w).2 = files w)
  /\ (Image payload <> "" -> base64.DecodeString (Image payload) = None ->
      (handleImageUpload os c w).1
      = {| Status := 400;
           body := JSONMap {[ "error" := VString "Invalid base64 image data";
                              "success" := VBool false ]} |}
      /\ files (handleImageUpload os c w).2 = files w)
  /\ (Image payload = "%%%" ->
      (handleImageUpload os c w).1
      = {| Status := 400;
           body := JSONMap {[ "error" := VString "Invalid base64 image data";
                              "success" := VBool false ]} |}
      /\ files (handleImageUpload os c w).2 = files w).
Proof.
  intros Hbody. unfold handleImageUpload. rewrite Hbody.
  split; [intros ->; split; reflexivity |].
  split.
  - intros Hne Hdec.
    destruct (String.eqb_spec (Image payload) "") as [|_]; [contradiction |].
    rewrite Hdec. split; reflexivity.
  - intros ->. split; reflexivity.
Qed.

Lemma upload_rejected_witness :
  ((handleImageUpload os_healthy
      {| BodyParser := Some {| Title := "t"; Description := "d"; Image := "" |} |}
      empty_world).1
   = {| Status := 400;
        body := JSONMap {[ "error" := VString "Image data is required";
                           "success" := VBool false ]} |})
  /\ ((handleImageUpload os_healthy
         {| BodyParser := Some {| Title := "t"; Description := "d"; Image := "%%%" |} |}
         empty_world).1
      = {| Status := 400;
           body := JSONMap {[ "error" := VString "Invalid base64 image data";
                              "success" := VBool false ]} |}).
Proof.
  split.
  - apply (proj1 (upload_rejected os_healthy
                    {| BodyParser := Some {| Title := "t"; Description := "d"; Image := "" |} |}
                    empty_world _ eq_refl)).
    reflexivity.
  - apply (proj2 (proj2 (upload_rejected os_healthy
                    {| BodyParser := Some {| Title := "t"; Description := "d"; Image := "%%%" |} |}
                    empty_world _ eq_refl))).
    reflexivity.
Defined.

End upload.

(** ** An uploaded file in the listing *)

Section upload_then_list.

Lemma get_append_r pre s k :
  String.get (String.length pre + k) (pre +:+ s) = String.get k s.
Proof. induction pre as [|c pre IH]; [reflexivity | exact IH]. Qed.

Lemma drop_bytes_append pre s : drop_bytes (String.length pre) (pre +:+ s) = s.
Proof. induction pre as [|c pre IH]; [destruct s; reflexivity | exact IH]. Qed.

Lemma first_bytes_append pre s : first_bytes (String.length pre) (pre +:+ s) = pre.
Proof.
  induction pre as [|c pre IH]; [destruct s; reflexivity |].
  rewrite append_cons. cbn [String.length first_bytes]. now rewrite IH.
Qed.

Lemma get_elem_of j s c :
  String.get j s = Some c -> c ∈ list_ascii_of_string s.
Proof.
  revert j. induction s as [|d s IH]; intros [|j] Hget; cbn in Hget;
    try discriminate.
  - injection Hget as ->. apply list_elem_of_here.
  - apply list_elem_of_further, (IH j), Hget.
Qed.

Lemma get_in_range j s : (j < String.length s)%nat -> is_Some (String.get j s).
Proof.
  revert j. induction s as [|d s IH]; intros [|j] Hj; cbn in *; try lia.
  - now exists d.
  - apply IH. lia.
Qed.

(** The scan of [Ext] walks back over plain characters up to the dot. *)
Lemma ext_scan_dotted pre suf k :
  (forall c, c ∈ list_ascii_of_string suf -> plain c) ->
  (k <= String.length suf)%nat ->
  filepath.ext_scan (pre +:+ String "." suf) (String.length pre + S k)
  = String "." suf.
Proof.
  intros Hplain. set (path := pre +:+ String "." suf).
  induction k as [|k IH]; intros Hk.
  - rewrite Nat.add_1_r. cbn [filepath.ext_scan].
    rewrite <- (Nat.add_0_r (String.length pre)) at 1.
    unfold path at 1. rewrite get_append_r. cbn.
    rewrite slice_from_drop_bytes
      by (unfold path; rewrite length_append; cbn; lia).
    apply drop_bytes_append.
  - rewrite Nat.add_succ_r. cbn [filepath.ext_scan].
    unfold path at 1. rewrite get_append_r. cbn [String.get].
    destruct (get_in_range k suf) as [c Hc]; [lia |]. rewrite Hc.
    destruct (Hplain c (get_elem_of _ _ _ Hc)) as [Hdot Hsep].
    unfold filepath.IsPathSeparator.
    destruct (Ascii.eqb_spec c "/") as [|_]; [contradiction |].
    destruct (Ascii.eqb_spec c ".") as [|_]; [contradiction |].
    apply IH. lia.
Qed.

Lemma Ext_dotted pre suf :
  (forall c, c ∈ list_ascii_of_string suf -> plain c) ->
  filepath.Ext (pre +:+ String "." suf) = String "." suf.
Proof.
  intros Hplain. unfold filepath.Ext, gostr.len.
  rewrite length_append. cbn [String.length].
  now apply ext_scan_dotted.
Qed.

Lemma TrimSuffix_append pre suf : strings.TrimSuffix (pre +:+ suf) suf = pre.
Proof.
  rewrite <- (drop_bytes_append pre suf) at 2.
  rewrite TrimSuffix_drop_bytes by (rewrite length_append; lia).
  apply first_bytes_append.
Qed.

(** Every extension the detection returns is a dot and plain characters. *)
Lemma fileExt_dotted data :
  exists suf, fileExt data = String "." suf
              /\ forall c, c ∈ list_ascii_of_string suf -> plain c.
Proof.
  pose proof (fileExt_range data) as Hr.
  repeat (apply elem_of_cons in Hr as [->|Hr]); [| | | | now apply elem_of_nil in Hr];
    eexists; (split; [reflexivity |]);
    apply Forall_forall, (bool_decide_unpack _); vm_compute; reflexivity.
Qed.

(** The title the listing shows for an uploaded file is the time stamp and
    the sanitized title (or [image]): the submitted title and description
    are not to be found in it. *)
Lemma uploaded_file_title timestamp title imageData :
  let name := upload_filename timestamp title imageData in
  filepath.Ext name = fileExt imageData
  /\ strings.TrimSuffix name (filepath.Ext name)
     = format_d timestamp +:+ "_" +:+ title_part title.
Proof.
  cbn zeta. unfold upload_filename.
  destruct (fileExt_dotted imageData) as (suf & -> & Hplain).
  rewrite !append_assoc.
  rewrite Ext_dotted by exact Hplain.
  split; [reflexivity | apply TrimSuffix_append].
Qed.

(** Uploading the title [My Photo!] with the description [a test] and then
    listing a directory that holds the new file: the record carries the
    derived title and the fixed description. *)
Example upload_then_list :
  let up := handleImageUpload os_healthy png_upload empty_world in
  files up.2 !! filepath.Join_uploads (Name sample_entry)
  = Some [x89; x50; x4e; x47; x0d; x0a; x1a; x0a]
  /\ exists m,
      body (getImageList os_healthy up.2).1 = JSONArray [m]
      /\ m !! "title" = Some (VString "1700000000_My_Photo!")
      /\ m !! "description" = Some (VString "Uploaded image").
Proof.
  split; [reflexivity |].
  eexists. split; [reflexivity |]. split; reflexivity.
Qed.

End upload_then_list.

(** ** Generated file names *)

Section filenames.

Lemma chars_append s1 s2 :
  list_ascii_of_string (s1 +:+ s2)
  = list_ascii_of_string s1 ++ list_ascii_of_string s2.
Proof.
  induction s1 as [|c s1 IH]; [reflexivity |].
  rewrite append_cons. cbn [list_ascii_of_string]. now rewrite IH.
Qed.

Lemma string_of_uint_chars u c :
  c ∈ list_ascii_of_string (NilEmpty.string_of_uint u) -> c ∈ decimal_chars.
Proof.
  induction u as [|u IH|u IH|u IH|u IH|u IH|u IH|u IH|u IH|u IH|u IH];
    cbn [NilEmpty.string_of_uint list_ascii_of_string]; intros Hc;
    try (now apply elem_of_nil in Hc);
    apply elem_of_cons in Hc as [->|Hc]; try (now apply IH);
    apply (bool_decide_unpack _); vm_compute; reflexivity.
Qed.

Lemma format_d_chars n c :
  c ∈ list_ascii_of_string (format_d n) -> c ∈ decimal_chars.
Proof.
  unfold format_d. destruct (Z.to_int n) as [u|u]; cbn [NilEmpty.string_of_int].
  - apply string_of_uint_chars.
  - cbn [list_ascii_of_string]. intros Hc.
    apply elem_of_cons in Hc as [->|Hc]; [|now apply (string_of_uint_chars u)].
    apply (bool_decide_unpack _); vm_compute; reflexivity.
Qed.

Lemma decimal_chars_allowed c : c ∈ decimal_chars -> c ∉ forbidden.
Proof.
  intros Hc. unfold decimal_chars in Hc.
  repeat (apply elem_of_cons in Hc as [->|Hc]);
    try (now apply elem_of_nil in Hc);
    apply (bool_decide_unpack _); vm_compute; reflexivity.
Qed.

Lemma title_part_chars title c :
  c ∈ list_ascii_of_string (title_part title) -> c ∉ forbidden.
Proof.
  rewrite title_part_decide.
  destruct (decide (sanitizeFilename title = "")) as [_|_];
    [|apply sanitizeFilename_chars].
  revert c. apply Forall_forall, (bool_decide_unpack _). vm_compute. reflexivity.
Qed.

Lemma title_part_length title :
  (1 <= String.length (title_part title) <= 50)%nat.
Proof.
  rewrite title_part_decide.
  destruct (decide (sanitizeFilename title = "")) as [_|Hne]; [cbn; lia |].
  rewrite sanitizeFilename_length.
  destruct title as [|c title]; [now destruct Hne |]. cbn [String.length]. lia.
Qed.

Lemma fileExt_chars data c :
  c ∈ list_ascii_of_string (fileExt data) -> c ∉ forbidden.
Proof.
  pose proof (fileExt_range data) as Hr.
  repeat (apply elem_of_cons in Hr as [->|Hr]); [| | | | now apply elem_of_nil in Hr];
    revert c; apply Forall_forall, (bool_decide_unpack _); vm_compute; reflexivity.
Qed.

Lemma fileExt_length data : (4 <= String.length (fileExt data) <= 5)%nat.
Proof.
  pose proof (fileExt_range data) as Hr.
  repeat (apply elem_of_cons in Hr as [->|Hr]); [| | | | now apply elem_of_nil in Hr];
    cbn; lia.
Qed.

Lemma upload_filename_chars timestamp title imageData c :
  c ∈ list_ascii_of_string (upload_filename timestamp title imageData) ->
  c ∉ forbidden.
Proof.
  unfold upload_filename. rewrite !chars_append.
  rewrite !elem_of_app. intros [Hc|[Hc|[Hc|Hc]]].
  - now apply decimal_chars_allowed, (format_d_chars timestamp).
  - cbn in Hc. apply elem_of_cons in Hc as [->|Hc]; [|now apply elem_of_nil in Hc].
    apply (bool_decide_unpack _); vm_compute; reflexivity.
  - now apply (title_part_chars title).
  - now apply (fileExt_chars imageData).
Qed.

Lemma upload_path_safe timestamp title imageData :
  safe_upload_path ("uploads/" +:+ upload_filename timestamp title imageData).
Proof.
  eexists. split; [reflexivity |]. intros c. apply upload_filename_chars.
Qed.

(** X7.  The generated file name is a single, safe path element.  Whatever
    the clock, the title and the bytes are, the name holds none of the ten
    forbidden characters, in particular no [/], so the file is written
    directly inside the uploads directory.  Its length is that of the
    printed time stamp plus 6 to 56 bytes. *)
Theorem upload_filename_safe (timestamp : Z) (title : string) (imageData : list byte) :
  let filename := upload_filename timestamp title imageData in
  (forall c, c ∈ list_ascii_of_string filename -> c ∉ forbidden)
  /\ (forall c, c ∈ list_ascii_of_string filename ->
        filepath.IsPathSeparator c = false)
  /\ safe_upload_path (filepath.Join_uploads filename)
  /\ (String.length (format_d timestamp) + 6 <= String.length filename)%nat
  /\ (String.length filename <= String.length (format_d timestamp) + 56)%nat.
Proof.
  cbn zeta.
  split; [intros c; apply upload_filename_chars |].
  split.
  { intros c Hc. apply upload_filename_chars in Hc. unfold filepath.IsPathSeparator.
    destruct (Ascii.eqb_spec c "/") as [->|_]; [|reflexivity].
    exfalso. apply Hc. apply (bool_decide_unpack _); vm_compute; reflexivity. }
  split; [apply upload_path_safe |].
  unfold upload_filename. rewrite !length_append.
  pose proof (title_part_length title). pose proof (fileExt_length imageData).
  cbn [String.length]. lia.
Qed.

End filenames.

(** ** The answer to a successful upload *)

Section upload_answer.










Lemma decimal_chars_ascii c : c ∈ decimal_chars -> utf8.is_ascii c = true.
Proof.
  revert c. apply Forall_forall, (bool_decide_unpack _). vm_compute. reflexivity.
Qed.

Lemma fileExt_string_of data : json.string_of (fileExt data) = fileExt data.
Proof.
  pose proof (fileExt_range data) as Hr.
  repeat (apply elem_of_cons in Hr as [->|Hr]); [| | | | now apply elem_of_nil in Hr];
    reflexivity.
Qed.

(** How JSON carries a generated file name: everything but the title part
    is made of one-byte characters. *)
Lemma string_of_filename prefix timestamp part data :
  (forall c, c ∈ list_ascii_of_string prefix -> utf8.is_ascii c = true) ->
  json.string_of (prefix +:+ format_d timestamp +:+ "_" +:+ part +:+ fileExt data)
  = prefix +:+ format_d timestamp +:+ "_" +:+ json.string_of part +:+ fileExt data.
Proof.
  intros Hprefix.
  rewrite string_of_ascii_app by exact Hprefix.
  rewrite string_of_ascii_app
    by (intros c Hc; now apply decimal_chars_ascii, (format_d_chars timestamp)).
  rewrite (string_of_ascii_app "_")
    by (apply Forall_forall, (bool_decide_unpack _); vm_compute; reflexivity).
  destruct (fileExt_dotted data) as (suf & Hext & _).
  pose proof (fileExt_string_of data) as Hsuf. rewrite Hext in *.
  rewrite string_of_app by reflexivity.
  rewrite string_of_ascii_cons in Hsuf by reflexivity.
  injection Hsuf as Hsuf. now rewrite Hsuf.
Qed.

Lemma string_of_upload_filename timestamp title data :
  json.string_of (upload_filename timestamp title data)
  = format_d timestamp +:+ "_" +:+ json.string_of (title_part title)
    +:+ fileExt data.
Proof.
  apply (string_of_filename EmptyString). intros c Hc. now apply elem_of_nil in Hc.
Qed.

Lemma string_of_stem_of_upload timestamp title :
  json.string_of (format_d timestamp +:+ "_" +:+ title_part title)
  = format_d timestamp +:+ "_" +:+ json.string_of (title_part title).
Proof.
  rewrite string_of_ascii_app
    by (intros c Hc; now apply decimal_chars_ascii, (format_d_chars timestamp)).
  rewrite (string_of_ascii_app "_")
    by (apply Forall_forall, (bool_decide_unpack _); vm_compute; reflexivity).
  reflexivity.
Qed.

Lemma string_of_uploads_url name :
  json.string_of ("/uploads/" +:+ name) = "/uploads/" +:+ json.string_of name.
Proof.
  apply string_of_ascii_app.
  apply Forall_forall, (bool_decide_unpack _). vm_compute. reflexivity.
Qed.

Lemma string_of_absolute_url name :
  json.string_of ("http://localhost:5174/uploads/" +:+ name)
  = "http://localhost:5174" +:+ json.string_of ("/uploads/" +:+ name).
Proof.
  rewrite string_of_uploads_url. apply string_of_ascii_app.
  apply Forall_forall, (bool_decide_unpack _). vm_compute. reflexivity.
Qed.




End upload_answer.

(** ** More on the upload handler *)

Section upload_more.

(** X1.  A body that cannot be parsed is answered 400 [Invalid request body];
    no file changes and the log gets one line. *)
Theorem upload_body_error (os : OS) (c : Ctx) (w : World) :
  BodyParser c = None ->
  (handleImageUpload os c w).1
  = {| Status := 400;
       body := JSONMap {[ "error" := VString "Invalid request body";
                          "success" := VBool false ]} |}
  /\ files (handleImageUpload os c w).2 = files w
  /\ logs (handleImageUpload os c w).2 = logs w ++ [LogBodyError].
Proof.
  intros Hbody. unfold handleImageUpload. rewrite Hbody. repeat split.
Qed.

Lemma upload_body_error_witness :
  Status (handleImageUpload os_healthy {| BodyParser := None |} empty_world).1 = 400.
Proof.
  pose proof (upload_body_error os_healthy {| BodyParser := None |} empty_world eq_refl)
    as (H & _).
  rewrite H. reflexivity.
Defined.

(** X2.  When the write fails the answer is 500 [Failed to save image], the
    answer carries no URL, and the log gets the failure line and no success
    line. *)
Theorem upload_write_error (os : OS) (c : Ctx) (w : World)
    (payload : ImagePayload) (imageData : list byte) (left : option (list byte)) :
  BodyParser c = Some payload ->
  Image payload <> "" ->
  base64.DecodeString (Image payload) = Some imageData ->
  write_result os
    ("uploads/" +:+ upload_filename (Now os) (Title payload) imageData) imageData
  = WriteErr left ->
  (handleImageUpload os c w).1
  = {| Status := 500;
       body := JSONMap {[ "error" := VString "Failed to save image";
                          "success" := VBool false ]} |}
  /\ logs (handleImageUpload os c w).2 = logs w ++ [LogSaveError].
Proof.
  intros Hbody Himage Hdecode Hwrite.
  unfold handleImageUpload. rewrite Hbody.
  destruct (String.eqb_spec (Image payload) "") as [He|_]; [contradiction |].
  rewrite Hdecode. cbn zeta. unfold WriteFile, filepath.Join_uploads.
  rewrite Hwrite. destruct left; split; reflexivity.
Qed.

Lemma upload_write_error_witness :
  Status (handleImageUpload (os_disk_full) png_upload empty_world).1 = 500.
Proof.
  pose proof (upload_write_error os_disk_full png_upload empty_world
                {| Title := "My Photo!"; Description := "a test";
                   Image := "iVBORw0KGgo=" |}
                [x89; x50; x4e; x47; x0d; x0a; x1a; x0a] None eq_refl) as H.
  destruct H as (H & _); [discriminate | reflexivity | reflexivity |].
  rewrite H. reflexivity.
Defined.

(** The outcome of a request, read off the four tests of the handler. *)
Lemma upload_cases os c w :
  (BodyParser c = None /\ Status (handleImageUpload os c w).1 = 400)
  \/ (exists payload, BodyParser c = Some payload /\ Image payload = ""
        /\ Status (handleImageUpload os c w).1 = 400)
  \/ (exists payload, BodyParser c = Some payload /\ Image payload <> ""
        /\ base64.DecodeString (Image payload) = None
        /\ Status (handleImageUpload os c w).1 = 400)
  \/ (exists payload imageData left,
        BodyParser c = Some payload /\ Image payload <> ""
        /\ base64.DecodeString (Image payload) = Some imageData
        /\ write_result os
             ("uploads/" +:+ upload_filename (Now os) (Title payload) imageData)
             imageData = WriteErr left
        /\ Status (handleImageUpload os c w).1 = 500)
  \/ (exists payload imageData,
        BodyParser c = Some payload /\ Image payload <> ""
        /\ base64.DecodeString (Image payload) = Some imageData
        /\ write_result os
             ("uploads/" +:+ upload_filename (Now os) (Title payload) imageData)
             imageData = WriteOk
        /\ Status (handleImageUpload os c w).1 = 200).
Proof.
  unfold handleImageUpload.
  destruct (BodyParser c) as [payload|]; [|left; split; reflexivity].
  right.
  destruct (String.eqb_spec (Image payload) "") as [He|Hne];
    [left; exists payload; repeat split; exact He |].
  right.
  destruct (base64.DecodeString (Image payload)) as [imageData|] eqn:Hdec;
    [|left; exists payload; repeat split; assumption].
  right. cbn zeta. unfold WriteFile, filepath.Join_uploads.
  destruct (write_result os _ imageData) as [|left] eqn:Hw.
  - right. exists payload, imageData. repeat split; assumption.
  - left. exists payload, imageData, left. destruct left; repeat split; assumption.
Qed.

(** X3.  The status is 200, 400 or 500, and it tells what happened: 200
    exactly when the body parsed, the image was non-empty base64 and the
    write succeeded; 500 exactly when only the write failed; 400 exactly
    when the body did not parse, the image was empty or it was not
    base64. *)
Theorem upload_status_cases (os : OS) (c : Ctx) (w : World) :
  let status := Status (handleImageUpload os c w).1 in
  (status = 200 \/ status = 400 \/ status = 500)
  /\ (status = 200 <->
      exists payload imageData,
        BodyParser c = Some payload /\ Image payload <> ""
        /\ base64.DecodeString (Image payload) = Some imageData
        /\ write_result os
             ("uploads/" +:+ upload_filename (Now os) (Title payload) imageData)
             imageData = WriteOk)
  /\ (status = 500 <->
      exists payload imageData left,
        BodyParser c = Some payload /\ Image payload <> ""
        /\ base64.DecodeString (Image payload) = Some imageData
        /\ write_result os
             ("uploads/" +:+ upload_filename (Now os) (Title payload) imageData)
             imageData = WriteErr left)
  /\ (status = 400 <->
      BodyParser c = None
      \/ exists payload,
           BodyParser c = Some payload
           /\ (Image payload = "" \/ base64.DecodeString (Image payload) = None)).
Proof.
  cbn zeta.
  destruct (upload_cases os c w)
    as [(Hb & Hs)|[(p & Hb & Hi & Hs)|[(p & Hb & Hi & Hd & Hs)
       |[(p & d & l & Hb & Hi & Hd & Hw & Hs)|(p & d & Hb & Hi & Hd & Hw & Hs)]]]];
    rewrite Hs; (split; [auto |]); repeat split;
    intros H; try discriminate H;
    repeat match goal with
           | H : exists _, _ |- _ => destruct H as [? H]
           | H : _ /\ _ |- _ => destruct H as [? ?]
           | H : _ \/ _ |- _ => destruct H as [H|H]
           end;
    try congruence; eauto 10.
Qed.

End upload_more.

(** ** What an upload does to the stored files and to the log *)

Section upload_effects.

(** The world after a request that went through. *)
Lemma upload_ok os c w payload imageData :
  BodyParser c = Some payload ->
  Image payload <> "" ->
  base64.DecodeString (Image payload) = Some imageData ->
  write_result os
    ("uploads/" +:+ upload_filename (Now os) (Title payload) imageData) imageData
  = WriteOk ->
  handleImageUpload os c w
  = ({| Status := 200;
        body := JSONMap
                  {[ "success" := VBool true;
                     "url" := VString
                                (json.string_of
                                   ("/uploads/"
                                    +:+ upload_filename (Now os) (Title payload)
                                          imageData)) ]} |},
     {| files := <[ "uploads/" +:+ upload_filename (Now os) (Title payload) imageData
                    := imageData ]> (files w);
        logs := logs w
                ++ [LogUploaded (upload_filename (Now os) (Title payload) imageData)
                      (Title payload) (Description payload)] |}).
Proof.
  intros Hbody Himage Hdecode Hwrite.
  unfold handleImageUpload. rewrite Hbody.
  destruct (String.eqb_spec (Image payload) "") as [He|_]; [contradiction |].
  rewrite Hdecode. cbn zeta. unfold WriteFile, filepath.Join_uploads.
  rewrite Hwrite. unfold c_JSON. cbn [json.document].
  now rewrite json_object_url.
Qed.

(** The files after any request: unchanged, or one path set, and that path
    is the one the handler generated. *)
Lemma upload_files os c w :
  files (handleImageUpload os c w).2 = files w
  \/ exists payload imageData d,
       BodyParser c = Some payload
       /\ base64.DecodeString (Image payload) = Some imageData
       /\ files (handleImageUpload os c w).2
          = <[ "uploads/" +:+ upload_filename (Now os) (Title payload) imageData := d ]>
              (files w).
Proof.
  unfold handleImageUpload.
  destruct (BodyParser c) as [payload|]; [|now left].
  destruct (String.eqb (Image payload) ""); [now left |].
  destruct (base64.DecodeString (Image payload)) as [imageData|] eqn:Hdec; [|now left].
  cbn zeta. unfold WriteFile, filepath.Join_uploads.
  destruct (write_result os _ imageData) as [|[d|]]; [right|right|now left].
  - exists payload, imageData, imageData.
    split; [reflexivity |]. split; [exact Hdec | reflexivity].
  - exists payload, imageData, d.
    split; [reflexivity |]. split; [exact Hdec | reflexivity].
Qed.

Lemma upload_logs os c w :
  exists extra,
    logs (handleImageUpload os c w).2 = logs w ++ extra /\ (length extra <= 1)%nat.
Proof.
  unfold handleImageUpload.
  destruct (BodyParser c) as [payload|]; [|eexists; split; [reflexivity | cbn; lia]].
  destruct (String.eqb (Image payload) "");
    [exists []; split; [now rewrite app_nil_r | cbn; lia] |].
  destruct (base64.DecodeString (Image payload)) as [imageData|];
    [|eexists; split; [reflexivity | cbn; lia]].
  cbn zeta. unfold WriteFile.
  destruct (write_result os _ imageData) as [|[d|]];
    eexists; (split; [reflexivity | cbn; lia]).
Qed.

(** X4.  Whatever the request and the environment, the handler changes at
    most one stored file, and only at a path directly inside the uploads
    directory with a safe name, which is the name it generated; it never
    removes a file; and it adds at most one line to the log. *)
Theorem upload_frame (os : OS) (c : Ctx) (w : World) (path : string) :
  let w' := (handleImageUpload os c w).2 in
  (files w' !! path <> files w !! path ->
   safe_upload_path path
   /\ exists payload imageData,
        BodyParser c = Some payload
        /\ base64.DecodeString (Image payload) = Some imageData
        /\ path = "uploads/" +:+ upload_filename (Now os) (Title payload) imageData)
  /\ (is_Some (files w !! path) -> is_Some (files w' !! path))
  /\ exists extra, logs w' = logs w ++ extra /\ (length extra <= 1)%nat.
Proof.
  cbn zeta. split; [|split; [|apply upload_logs]].
  - intros Hne.
    destruct (upload_files os c w) as [Heq|(payload & imageData & d & Hb & Hd & Heq)];
      rewrite Heq in Hne; [contradiction |].
    destruct (decide ("uploads/" +:+ upload_filename (Now os) (Title payload) imageData
                      = path)) as [<-|Hp].
    + split; [|now exists payload, imageData].
      apply upload_path_safe.
    + rewrite lookup_insert_ne in Hne by exact Hp. contradiction.
  - intros Hsome.
    destruct (upload_files os c w) as [Heq|(payload & imageData & d & _ & _ & Heq)];
      rewrite Heq; [exact Hsome |].
    destruct (decide ("uploads/" +:+ upload_filename (Now os) (Title payload) imageData
                      = path)) as [<-|Hp].
    + rewrite lookup_insert_eq. now exists d.
    + now rewrite lookup_insert_ne.
Qed.

Lemma upload_frame_witness :
  safe_upload_path "uploads/1700000000_My_Photo!.png".
Proof.
  apply (proj1 (upload_frame os_healthy png_upload empty_world
                  "uploads/1700000000_My_Photo!.png")).
  vm_compute. discriminate.
Defined.

(** X5.  The success line of the log carries the generated file name
    together with the title and the description exactly as they were
    submitted; a request rejected for an empty image leaves the log as it
    was. *)
Theorem upload_log_entry (os : OS) (c : Ctx) (w : World) (payload : ImagePayload) :
  BodyParser c = Some payload ->
  (Image payload = "" -> logs (handleImageUpload os c w).2 = logs w)
  /\ (forall imageData,
        Image payload <> "" ->
        base64.DecodeString (Image payload) = Some imageData ->
        write_result os
          ("uploads/" +:+ upload_filename (Now os) (Title payload) imageData) imageData
        = WriteOk ->
        logs (handleImageUpload os c w).2
        = logs w ++ [LogUploaded (upload_filename (Now os) (Title payload) imageData)
                       (Title payload) (Description payload)]).
Proof.
  intros Hbody. split.
  - intros He. unfold handleImageUpload. rewrite Hbody, He. reflexivity.
  - intros imageData Hne Hdec Hw.
    now rewrite (upload_ok os c w payload imageData Hbody Hne Hdec Hw).
Qed.

Lemma upload_log_entry_witness :
  logs (handleImageUpload os_healthy png_upload empty_world).2
  = [LogUploaded "1700000000_My_Photo!.png" "My Photo!" "a test"].
Proof.
  refine (proj2 (upload_log_entry os_healthy png_upload empty_world _ eq_refl)
            [x89; x50; x4e; x47; x0d; x0a; x1a; x0a] _ eq_refl eq_refl).
  discriminate.
Defined.

(** X6.  No collision check.  Two requests that meet the same clock second,
    whose titles have the same sanitized form and whose bytes are detected
    as the same format, are both answered 200 with the same URL, and the
    second overwrites the first: afterwards the path holds the bytes of the
    second request only. *)
Theorem upload_same_second_overwrites (os1 os2 : OS) (c1 c2 : Ctx) (w : World)
    (p1 p2 : ImagePayload) (d1 d2 : list byte) :
  BodyParser c1 = Some p1 -> BodyParser c2 = Some p2 ->
  Image p1 <> "" -> Image p2 <> "" ->
  base64.DecodeString (Image p1) = Some d1 ->
  base64.DecodeString (Image p2) = Some d2 ->
  Now os1 = Now os2 ->
  sanitizeFilename (Title p1) = sanitizeFilename (Title p2) ->
  fileExt d1 = fileExt d2 ->
  let path := "uploads/" +:+ upload_filename (Now os1) (Title p1) d1 in
  write_result os1 path d1 = WriteOk ->
  write_result os2 path d2 = WriteOk ->
  let first := handleImageUpload os1 c1 w in
  let second := handleImageUpload os2 c2 first.2 in
  Status first.1 = 200
  /\ second.1 = first.1
  /\ files first.2 !! path = Some d1
  /\ files second.2 !! path = Some d2
  /\ files second.2 = <[ path := d2 ]> (files w).
Proof.
  intros Hb1 Hb2 Hi1 Hi2 Hd1 Hd2 Hnow Hsan Hext path Hw1 Hw2.
  assert (Hname : upload_filename (Now os2) (Title p2) d2
                  = upload_filename (Now os1) (Title p1) d1).
  { unfold upload_filename, title_part. now rewrite Hnow, Hsan, Hext. }
  cbn zeta.
  rewrite (upload_ok os1 c1 w p1 d1 Hb1 Hi1 Hd1 Hw1). cbn [fst snd].
  rewrite (upload_ok os2 c2 _ p2 d2 Hb2 Hi2 Hd2) by (rewrite Hname; exact Hw2).
  cbn [fst snd files]. rewrite Hname. fold path.
  split; [reflexivity |]. split; [reflexivity |].
  split; [apply lookup_insert_eq |].
  split; [apply lookup_insert_eq | apply insert_insert_eq].
Qed.

Lemma upload_same_second_overwrites_witness :
  files (handleImageUpload os_healthy png_upload_again
           (handleImageUpload os_healthy png_upload empty_world).2).2
  = {[ "uploads/1700000000_My_Photo!.png"
       := [x89; x50; x4e; x47; x0d; x0a; x1a; x0a; x00] ]}.
Proof.
  refine (proj2 (proj2 (proj2 (proj2
            (upload_same_second_overwrites os_healthy os_healthy
               png_upload png_upload_again empty_world _ _
               [x89; x50; x4e; x47; x0d; x0a; x1a; x0a]
               [x89; x50; x4e; x47; x0d; x0a; x1a; x0a; x00]
               eq_refl eq_refl _ _ eq_refl eq_refl eq_refl eq_refl eq_refl
               eq_refl eq_refl))))); discriminate.
Defined.

End upload_effects.

(** ** More on the listing handler *)

Section listing_more.

Lemma list_loop_logs os entries images w :
  logs (list_loop os entries images w).2 = logs w ++ omap (missed os) entries.
Proof.
  revert images w. induction entries as [|file rest IH]; intros images w.
  - cbn. now rewrite app_nil_r.
  - rewrite omap_cons. unfold missed at 1. cbn [list_loop].
    destruct (IsDir file); cbn [negb]; [apply IH |].
    destruct (Stat os (filepath.Join_uploads (Name file))) as [info|].
    + apply IH.
    + rewrite IH. cbn [log_Printf logs]. now rewrite <- app_assoc.
Qed.

Lemma listed_or_missed os entries :
  (length (omap (listed os) entries) + length (omap (missed os) entries))%nat
  = length (filter (fun file => IsDir file = false) entries).
Proof.
  induction entries as [|file rest IH]; [reflexivity |].
  rewrite !omap_cons, filter_cons. unfold listed at 1, missed at 1.
  destruct (IsDir file).
  - rewrite decide_False by discriminate. exact IH.
  - rewrite decide_True by reflexivity.
    destruct (Stat os (filepath.Join_uploads (Name file))); cbn [fmap option_fmap option_map length];
      lia.
Qed.

(** X12.  The listing is read-only and accounts for every file entry.  It
    leaves the stored files as they are.  When the directory cannot be read
    it logs one line; otherwise it logs one line per file entry whose
    metadata cannot be read, and the number of records plus the number of
    these lines is the number of entries that are not directories. *)
Theorem listing_effects (os : OS) (w : World) :
  files (getImageList os w).2 = files w
  /\ (ReadDir_uploads os = None ->
      logs (getImageList os w).2 = logs w ++ [LogReadDirError])
  /\ (forall entries, ReadDir_uploads os = Some entries ->
      logs (getImageList os w).2 = logs w ++ omap (missed os) entries
      /\ exists images,
           body (getImageList os w).1 = JSONArray images
           /\ (length images + length (omap (missed os) entries))%nat
              = length (filter (fun file => IsDir file = false) entries)).
Proof.
  split; [apply getImageList_files |].
  split.
  - intros Hrd. unfold getImageList. rewrite Hrd. reflexivity.
  - intros entries Hrd. split.
    + unfold getImageList. rewrite Hrd.
      pose proof (list_loop_logs os entries [] w) as Hl.
      destruct (list_loop os entries [] w) as [images w'].
      destruct (length images =? 0)%nat; exact Hl.
    + exists (omap (listed os) entries).
      rewrite (getImageList_ok _ _ _ Hrd). split; [reflexivity |].
      apply listed_or_missed.
Qed.

Lemma listing_effects_witness :
  logs (getImageList os_unreadable empty_world).2 = [LogStatError].
Proof.
  apply (proj2 (proj2 (listing_effects os_unreadable empty_world)) [sample_entry]).
  reflexivity.
Defined.

Lemma listed_name os file m :
  listed os file = Some m ->
  m !! "name" = Some (VString (json.string_of (Name file))).
Proof.
  rewrite listed_eq. destruct (IsDir file); [discriminate |].
  destruct (Stat os (filepath.Join_uploads (Name file))); [|discriminate].
  intros [= <-]. reflexivity.
Qed.

(** X13.  The records come in the order of the directory entries.  Their
    [name] fields are the names, as JSON encodes them, of the entries that
    are files with readable metadata, in the order [ReadDir] gave them;
    when the names of the entries are valid UTF-8 the fields are these
    names themselves.  There are never more records than entries. *)
Theorem listing_names_in_order (os : OS) (w : World) (entries : list FileInfo) :
  ReadDir_uploads os = Some entries ->
  exists images,
    (getImageList os w).1 = {| Status := 200; body := JSONArray images |}
    /\ (fun m : gmap string Value => m !! "name") <$> images
       = (fun file => Some (VString (json.string_of (Name file))))
           <$> filter (fun file => is_listed os file = true) entries
    /\ ((forall file, file ∈ entries -> utf8.ValidString (Name file) = true) ->
        (fun m : gmap string Value => m !! "name") <$> images
        = (fun file => Some (VString (Name file)))
            <$> filter (fun file => is_listed os file = true) entries)
    /\ (length images <= length entries)%nat.
Proof.
  intros Hrd. exists (omap (listed os) entries).
  split; [now apply getImageList_ok |].
  assert (Hnames : (fun m : gmap string Value => m !! "name")
                     <$> omap (listed os) entries
                   = (fun file => Some (VString (json.string_of (Name file))))
                       <$> filter (fun file => is_listed os file = true) entries).
  { clear Hrd. induction entries as [|file rest IH]; [reflexivity |].
    rewrite omap_cons, filter_cons.
    destruct (listed os file) as [m|] eqn:Hl.
    + rewrite decide_True by (apply listed_is_listed; rewrite Hl; now eexists).
      cbn [fmap list_fmap]. rewrite (listed_name _ _ _ Hl). f_equal. exact IH.
    + rewrite decide_False; [exact IH |].
      intros Hc. apply listed_is_listed in Hc as [m Hm]. congruence. }
  split; [exact Hnames |]. split.
  - intros Hvalid. rewrite Hnames. apply list_fmap_ext.
    intros i file Hfile. apply list_elem_of_lookup_2 in Hfile.
    apply list_elem_of_filter in Hfile as [_ Hin].
    now rewrite (ValidString_string_of _ (Hvalid file Hin)).
  - clear Hrd Hnames. induction entries as [|file rest IH]; [cbn; lia |].
    rewrite omap_cons. destruct (listed os file); cbn [length]; lia.
Qed.

Lemma listing_names_in_order_witness :
  exists images,
    (getImageList os_healthy empty_world).1
    = {| Status := 200; body := JSONArray images |}
    /\ (fun m : gmap string Value => m !! "name") <$> images
       = [Some (VString "1700000000_My_Photo!.png")]
    /\ ((forall file, file ∈ [sample_dir; sample_entry] ->
         utf8.ValidString (Name file) = true) ->
        (fun m : gmap string Value => m !! "name") <$> images
        = [Some (VString "1700000000_My_Photo!.png")])
    /\ (length images <= 2)%nat.
Proof.
  apply (listing_names_in_order os_healthy empty_world [sample_dir; sample_entry]).
  reflexivity.
Defined.

End listing_more.

(** ** From an upload to its record in the listing *)

Section round_trip.

Lemma image_of_url file info :
  image_of file info !! "url"
  = Some (VString ("http://localhost:5174/uploads/" +:+ Name file)).
Proof. reflexivity. Qed.

Lemma image_of_size file info :
  image_of file info !! "size" = Some (VInt (Size info))
  /\ image_of file info !! "upload_time" = Some (VInt (ModTime info)).
Proof. split; reflexivity. Qed.

(** X14.  An uploaded file as the listing shows it.  After a request that
    went through, whenever the directory shows the new file and its
    metadata can be read, the listing holds a record whose URL is the host
    followed by the URL the upload answered, whose name is the stored file
    name and whose title is the time stamp with the title part, both as
    JSON encodes them (a byte of the title part that is not part of a valid
    UTF-8 encoding has become U+FFFD), whose description is the fixed
    text, and whose size and time are those [os.Stat] reports.  When the
    title part is valid UTF-8, the URL of the upload is [/uploads/] with
    the stored name, the record's name is the stored name and its title is
    the time stamp with the title part. *)
Theorem upload_then_listed (os : OS) (c : Ctx) (w : World)
    (payload : ImagePayload) (imageData : list byte)
    (os' : OS) (w' : World) (entries : list FileInfo)
    (file info : FileInfo) :
  BodyParser c = Some payload ->
  Image payload <> "" ->
  base64.DecodeString (Image payload) = Some imageData ->
  let filename := upload_filename (Now os) (Title payload) imageData in
  write_result os ("uploads/" +:+ filename) imageData = WriteOk ->
  ReadDir_uploads os' = Some entries ->
  file ∈ entries -> Name file = filename -> IsDir file = false ->
  Stat os' (filepath.Join_uploads filename) = Some info ->
  exists url images m,
    body (handleImageUpload os c w).1
    = JSONMap {[ "success" := VBool true; "url" := VString url ]}
    /\ (getImageList os' w').1 = {| Status := 200; body := JSONArray images |}
    /\ m ∈ images
    /\ m !! "url" = Some (VString ("http://localhost:5174" +:+ url))
    /\ m !! "name" = Some (VString (json.string_of filename))
    /\ m !! "title"
       = Some (VString (format_d (Now os) +:+ "_"
                        +:+ json.string_of (title_part (Title payload))))
    /\ m !! "description" = Some (VString "Uploaded image")
    /\ m !! "size" = Some (VInt (Size info))
    /\ m !! "upload_time" = Some (VInt (ModTime info))
    /\ (utf8.ValidString (title_part (Title payload)) = true ->
        url = "/uploads/" +:+ filename
        /\ m !! "name" = Some (VString filename)
        /\ m !! "title"
           = Some (VString (format_d (Now os) +:+ "_" +:+ title_part (Title payload)))).
Proof.
  intros Hbody Himage Hdecode filename Hwrite Hrd Hin Hname Hfile Hstat.
  exists (json.string_of ("/uploads/" +:+ filename)),
         (omap (listed os') entries), (json.object (image_of file info)).
  split; [now rewrite (upload_ok os c w payload imageData Hbody Himage Hdecode Hwrite) |].
  split; [now apply getImageList_ok |].
  split.
  { apply list_elem_of_omap. exists file. split; [exact Hin |].
    rewrite listed_eq, Hfile, Hname, Hstat. reflexivity. }
  destruct (uploaded_file_title (Now os) (Title payload) imageData) as [_ Htitle].
  cbn zeta in Htitle. fold filename in Htitle.
  assert (Hm_name : json.object (image_of file info) !! "name"
                    = Some (VString (json.string_of filename)))
    by (rewrite json_image_of, Hname; reflexivity).
  assert (Hm_title : json.object (image_of file info) !! "title"
                     = Some (VString (format_d (Now os) +:+ "_"
                                      +:+ json.string_of (title_part (Title payload))))).
  { rewrite json_image_of, Hname, Htitle, <- string_of_stem_of_upload. reflexivity. }
  split; [rewrite json_image_of, Hname, <- string_of_absolute_url; reflexivity |].
  split; [exact Hm_name |]. split; [exact Hm_title |].
  split; [rewrite json_image_of; reflexivity |].
  split; [rewrite json_image_of; reflexivity |].
  split; [rewrite json_image_of; reflexivity |].
  intros Hvalid. apply ValidString_string_of in Hvalid.
  assert (Hfn : json.string_of filename = filename).
  { unfold filename. rewrite string_of_upload_filename, Hvalid. reflexivity. }
  rewrite Hm_name, Hm_title, string_of_uploads_url, Hfn, Hvalid.
  repeat split.
Qed.

Lemma upload_then_listed_witness :
  exists url images m,
    body (handleImageUpload os_healthy png_upload empty_world).1
    = JSONMap {[ "success" := VBool true; "url" := VString url ]}
    /\ (getImageList os_healthy empty_world).1
       = {| Status := 200; body := JSONArray images |}
    /\ m ∈ images
    /\ m !! "url" = Some (VString ("http://localhost:5174" +:+ url))
    /\ m !! "name" = Some (VString "1700000000_My_Photo!.png")
    /\ m !! "title" = Some (VString "1700000000_My_Photo!")
    /\ m !! "description" = Some (VString "Uploaded image")
    /\ m !! "size" = Some (VInt 8)
    /\ m !! "upload_time" = Some (VInt 1700000000)
    /\ (utf8.ValidString "My_Photo!" = true ->
        url = "/uploads/1700000000_My_Photo!.png"
        /\ m !! "name" = Some (VString "1700000000_My_Photo!.png")
        /\ m !! "title" = Some (VString "1700000000_My_Photo!")).
Proof.
  refine (upload_then_listed os_healthy png_upload empty_world
            {| Title := "My Photo!"; Description := "a test"; Image := "iVBORw0KGgo=" |}
            [x89; x50; x4e; x47; x0d; x0a; x1a; x0a]
            os_healthy empty_world [sample_dir; sample_entry] sample_entry sample_entry
            eq_refl _ eq_refl eq_refl eq_refl _ eq_refl eq_refl eq_refl).
  - discriminate.
  - apply list_elem_of_further, list_elem_of_here.
Defined.

End round_trip.

(** ** Invariants of a run of requests *)

Section runs.

Lemma handle_files os req w path :
  (files (handle os req w).2 !! path <> files w !! path -> safe_upload_path path)
  /\ (is_Some (files w !! path) -> is_Some (files (handle os req w).2 !! path)).
Proof.
  destruct req as [c|]; cbn [handle].
  - destruct (upload_files os c w) as [Heq|(payload & imageData & d & _ & _ & Heq)];
      rewrite Heq; [split; [contradiction | auto] |].
    destruct (decide ("uploads/" +:+ upload_filename (Now os) (Title payload) imageData
                      = path)) as [<-|Hp].
    + split.
      * intros _. apply upload_path_safe.
      * intros _. rewrite lookup_insert_eq. now exists d.
    + rewrite lookup_insert_ne by exact Hp. split; [contradiction | auto].
  - rewrite getImageList_files. split; [contradiction | auto].
Qed.

Lemma handle_logs os req w : logs w `prefix_of` logs (handle os req w).2.
Proof.
  destruct req as [c|]; cbn [handle].
  - destruct (upload_logs os c w) as (extra & -> & _). now exists extra.
  - unfold getImageList. destruct (ReadDir_uploads os) as [entries|].
    + pose proof (list_loop_logs os entries [] w) as Hl.
      destruct (list_loop os entries [] w) as [images w'].
      destruct (length images =? 0)%nat; cbn [snd] in *; rewrite Hl; now eexists.
    + now eexists.
Qed.

(** X15.  However many uploads and listings are served one after the other,
    and whatever the environment answers, every stored file that was
    created or changed lies directly inside the uploads directory under a
    safe name; no file that existed is ever removed; and the log only
    grows. *)
Theorem serve_all_invariant (reqs : list (OS * Request)) (w : World) (path : string) :
  (files (serve_all reqs w) !! path <> files w !! path -> safe_upload_path path)
  /\ (is_Some (files w !! path) -> is_Some (files (serve_all reqs w) !! path))
  /\ logs w `prefix_of` logs (serve_all reqs w).
Proof.
  revert w. induction reqs as [|[os req] rest IH]; intros w.
  - cbn. split; [contradiction |]. split; [auto | reflexivity].
  - cbn [serve_all].
    destruct (IH (handle os req w).2) as (IH1 & IH2 & IH3).
    destruct (handle_files os req w path) as (H1 & H2).
    split; [|split].
    + intros Hne.
      destruct (decide (files (handle os req w).2 !! path = files w !! path))
        as [Heq|Hch]; [|now apply H1].
      apply IH1. now rewrite Heq.
    + intros Hsome. apply IH2, H2, Hsome.
    + etransitivity; [apply handle_logs | exact IH3].
Qed.

Lemma serve_all_invariant_witness :
  safe_upload_path "uploads/1700000000_My_Photo!.png".
Proof.
  apply (proj1 (serve_all_invariant
                  [(os_healthy, ReqUpload png_upload); (os_unreadable, ReqList);
                   (os_healthy, ReqUpload png_upload_again)]
                  empty_world "uploads/1700000000_My_Photo!.png")).
  vm_compute. discriminate.
Defined.

End runs.

(** ** Fixed points of the sanitizer *)

Section sanitizer_more.

Lemma map_chars_id f s :
  (forall c, c ∈ list_ascii_of_string s -> f c = c) -> map_chars f s = s.
Proof.
  induction s as [|c s IH]; intros Hf; [reflexivity |].
  cbn [map_chars]. rewrite Hf by apply list_elem_of_here.
  rewrite IH; [reflexivity |].
  intros d Hd. apply Hf. cbn. now apply list_elem_of_further.
Qed.

Lemma sanitize_char_allowed c : c ∉ forbidden -> sanitize_char c = c.
Proof.
  intros Hc. unfold sanitize_char.
  destruct (Ascii.eqb_spec c " ") as [->|_].
  - exfalso. apply Hc. apply (bool_decide_unpack _); vm_compute; reflexivity.
  - now rewrite bool_decide_eq_false_2.
Qed.

Lemma first_bytes_map_chars n f s :
  first_bytes n (map_chars f s) = map_chars f (first_bytes n s).
Proof.
  revert s. induction n as [|n IH]; intros [|c s]; cbn; try reflexivity.
  now rewrite IH.
Qed.

Lemma first_bytes_twice n s : first_bytes n (first_bytes n s) = first_bytes n s.
Proof.
  revert s. induction n as [|n IH]; intros [|c s]; cbn; try reflexivity.
  now rewrite IH.
Qed.

(** X11.  The titles the sanitizer leaves alone are exactly those of at most
    50 bytes without a forbidden character; sanitizing twice is sanitizing
    once; and the result depends on the first 50 bytes of the title only. *)
Theorem sanitizeFilename_fixed (title : string) :
  (sanitizeFilename title = title <->
   (forall c, c ∈ list_ascii_of_string title -> c ∉ forbidden)
   /\ (String.length title <= 50)%nat)
  /\ sanitizeFilename (sanitizeFilename title) = sanitizeFilename title
  /\ sanitizeFilename (first_bytes 50 title) = sanitizeFilename title.
Proof.
  assert (Hfix : forall s,
             (forall c, c ∈ list_ascii_of_string s -> c ∉ forbidden) ->
             (String.length s <= 50)%nat -> sanitizeFilename s = s).
  { intros s Hall Hlen. rewrite sanitizeFilename_refines. unfold sanitize_spec.
    rewrite map_chars_id by (intros c Hc; now apply sanitize_char_allowed, Hall).
    now apply first_bytes_all. }
  split; [split |split].
  - intros Heq. split.
    + intros c Hc. rewrite <- Heq in Hc. now apply sanitizeFilename_chars in Hc.
    + rewrite <- Heq, sanitizeFilename_length. lia.
  - intros [Hall Hlen]. now apply Hfix.
  - apply Hfix; [intros c; apply sanitizeFilename_chars |].
    rewrite sanitizeFilename_length. lia.
  - rewrite !sanitizeFilename_refines. unfold sanitize_spec.
    now rewrite <- first_bytes_map_chars, first_bytes_twice.
Qed.

End sanitizer_more.

(** ** The gallery page *)

Section gallery_page.

Import gallery.

(** X16.  [fetchImages] always ends with [loading] false, so the page leaves
    the loading state.  On success the received document replaces [images]
    and an earlier error is cleared.  On any failure [images] keeps its
    earlier value and [error] is set: to [Failed to fetch images] for a
    response whose status is not 2xx, to the message of the rejection
    otherwise; the page then shows the error state with that message,
    unless the message is empty. *)
Theorem fetchImages_settles (st : State) (o : FetchOutcome) :
  let st' := fetchImages st o in
  loading st' = false
  /\ view st' <> LoadingState
  /\ (forall status v,
        o = FetchResolves status (JsonValue v) -> response_ok status = true ->
        images st' = v /\ error st' = None)
  /\ (forall status json,
        o = FetchResolves status json -> response_ok status = false ->
        images st' = images st /\ error st' = Some "Failed to fetch images"
        /\ view st' = ErrorState "Failed to fetch images")
  /\ (forall message,
        o = FetchRejects message
        \/ (exists status, o = FetchResolves status (JsonRejects message)
                           /\ response_ok status = true) ->
        images st' = images st /\ error st' = Some message
        /\ (message <> "" -> view st' = ErrorState message)
        /\ (message = "" -> forall m, view st' <> ErrorState m)).
Proof.
  cbn zeta. unfold fetchImages.
  split; [|split; [|split; [|split]]].
  - destruct o as [m|status [m|v]]; cbn; [reflexivity | |];
      destruct (response_ok status); reflexivity.
  - unfold view.
    assert (Hl : loading (fetch_settle (fetch_begin st) o) = false)
      by (destruct o as [m|status [m|v]]; cbn; [reflexivity | |];
          destruct (response_ok status); reflexivity).
    rewrite Hl.
    destruct (truthy _); [discriminate |].
    destruct (length_is_zero _); discriminate.
  - intros status v -> Hok. cbn. rewrite Hok. cbn. split; reflexivity.
  - intros status json -> Hok. unfold view. cbn. rewrite Hok. cbn.
    repeat split.
  - intros message [->|(status & -> & Hok)]; unfold view; cbn;
      try rewrite Hok; cbn.
    all: split; [reflexivity |]; split; [reflexivity |]; split.
    all: try (intros Hne; destruct (String.eqb_spec message "") as [|_];
              [contradiction | reflexivity]).
    all: intros -> m; cbn; destruct (length_is_zero (images st)); discriminate.
Qed.

(** X17.  What the page shows for the answer of [getImageList].  If the
    directory cannot be read the page shows the error state with the
    client's own text [Failed to fetch images]; the server's reason is not
    shown.  If no entry yields a record it shows the empty state.
    Otherwise it shows the gallery with the records of the listing. *)
Theorem gallery_of_listing (os : OS) (w : World) (st : State) :
  view (fetchImages st (answered (getImageList os w).1))
  = match ReadDir_uploads os with
    | None => ErrorState "Failed to fetch images"
    | Some entries =>
        match omap (listed os) entries with
        | [] => EmptyState
        | records => Gallery (JSONArray records)
        end
    end.
Proof.
  destruct (ReadDir_uploads os) as [entries|] eqn:Hrd.
  - rewrite (getImageList_ok _ _ _ Hrd).
    destruct (omap (listed os) entries) as [|m l]; reflexivity.
  - rewrite (getImageList_failed _ _ Hrd). reflexivity.
Qed.

(** X18.  An uploaded image in the gallery.  After a request that went
    through, when the directory shows the new file with readable metadata,
    the page shows the gallery, and one of its cards has as image source
    the host followed by the URL the upload answered, as title and
    alternative text the time stamp with the title part as JSON encodes it
    (a byte that is not part of a valid UTF-8 encoding has become U+FFFD;
    the title part itself when it is valid UTF-8), and as description the
    fixed text: what the user typed as description does not reach the
    page. *)
Theorem gallery_card_of_upload (os : OS) (c : Ctx) (w : World)
    (payload : ImagePayload) (imageData : list byte)
    (os' : OS) (w' : World) (entries : list FileInfo)
    (file info : FileInfo) (st : State) :
  BodyParser c = Some payload ->
  Image payload <> "" ->
  base64.DecodeString (Image payload) = Some imageData ->
  let filename := upload_filename (Now os) (Title payload) imageData in
  write_result os ("uploads/" +:+ filename) imageData = WriteOk ->
  ReadDir_uploads os' = Some entries ->
  file ∈ entries -> Name file = filename -> IsDir file = false ->
  Stat os' (filepath.Join_uploads filename) = Some info ->
  exists url records m,
    body (handleImageUpload os c w).1
    = JSONMap {[ "success" := VBool true; "url" := VString url ]}
    /\ view (fetchImages st (answered (getImageList os' w').1))
       = Gallery (JSONArray records)
    /\ m ∈ records
    /\ card_of m
       = {| src := Some (VString ("http://localhost:5174" +:+ url));
            alt := Some (VString (format_d (Now os) +:+ "_"
                                  +:+ json.string_of (title_part (Title payload))));
            art_title := Some (VString (format_d (Now os) +:+ "_"
                                        +:+ json.string_of (title_part (Title payload))));
            art_description := Some (VString "Uploaded image") |}
    /\ (utf8.ValidString (title_part (Title payload)) = true ->
        url = "/uploads/" +:+ filename
        /\ card_of m
           = {| src := Some (VString ("http://localhost:5174/uploads/" +:+ filename));
                alt := Some (VString (format_d (Now os) +:+ "_"
                                      +:+ title_part (Title payload)));
                art_title := Some (VString (format_d (Now os) +:+ "_"
                                            +:+ title_part (Title payload)));
                art_description := Some (VString "Uploaded image") |}).
Proof.
  intros Hbody Himage Hdecode filename Hwrite Hrd Hin Hname Hfile Hstat.
  exists (json.string_of ("/uploads/" +:+ filename)),
         (omap (listed os') entries), (json.object (image_of file info)).
  assert (Hm : json.object (image_of file info) ∈ omap (listed os') entries).
  { apply list_elem_of_omap. exists file. split; [exact Hin |].
    rewrite listed_eq, Hfile, Hname, Hstat. reflexivity. }
  split; [now rewrite (upload_ok os c w payload imageData Hbody Himage Hdecode Hwrite) |].
  split.
  { rewrite (getImageList_ok _ _ _ Hrd).
    destruct (omap (listed os') entries); [now apply elem_of_nil in Hm | reflexivity]. }
  split; [exact Hm |].
  destruct (uploaded_file_title (Now os) (Title payload) imageData) as [_ Htitle].
  cbn zeta in Htitle. fold filename in Htitle.
  assert (Hcard : card_of (json.object (image_of file info))
                  = {| src := Some (VString ("http://localhost:5174"
                                             +:+ json.string_of ("/uploads/" +:+ filename)));
                       alt := Some (VString (format_d (Now os) +:+ "_"
                                             +:+ json.string_of (title_part (Title payload))));
                       art_title := Some (VString (format_d (Now os) +:+ "_"
                                                   +:+ json.string_of
                                                         (title_part (Title payload))));
                       art_description := Some (VString "Uploaded image") |}).
  { unfold card_of. rewrite json_image_of, Hname, Htitle.
    rewrite <- string_of_stem_of_upload, <- string_of_absolute_url. reflexivity. }
  split; [exact Hcard |].
  intros Hvalid. apply ValidString_string_of in Hvalid.
  assert (Hfn : json.string_of filename = filename).
  { unfold filename. rewrite string_of_upload_filename, Hvalid. reflexivity. }
  rewrite Hcard, string_of_uploads_url, Hfn, Hvalid. split; reflexivity.
Qed.

End gallery_page.

Section gallery_witness.

Import gallery.

Lemma gallery_card_of_upload_witness :
  exists url records m,
    body (handleImageUpload os_healthy png_upload empty_world).1
    = JSONMap {[ "success" := VBool true; "url" := VString url ]}
    /\ view (fetchImages initial (answered (getImageList os_healthy empty_world).1))
       = Gallery (JSONArray records)
    /\ m ∈ records
    /\ card_of m
       = {| src := Some (VString ("http://localhost:5174" +:+ url));
            alt := Some (VString "1700000000_My_Photo!");
            art_title := Some (VString "1700000000_My_Photo!");
            art_description := Some (VString "Uploaded image") |}
    /\ (utf8.ValidString "My_Photo!" = true ->
        url = "/uploads/1700000000_My_Photo!.png"
        /\ card_of m
           = {| src := Some (VString
                               "http://localhost:5174/uploads/1700000000_My_Photo!.png");
                alt := Some (VString "1700000000_My_Photo!");
                art_title := Some (VString "1700000000_My_Photo!");
                art_description := Some (VString "Uploaded image") |}).
Proof.
  refine (gallery_card_of_upload os_healthy png_upload empty_world
            {| Title := "My Photo!"; Description := "a test"; Image := "iVBORw0KGgo=" |}
            [x89; x50; x4e; x47; x0d; x0a; x1a; x0a]
            os_healthy empty_world [sample_dir; sample_entry] sample_entry sample_entry
            initial
            eq_refl _ eq_refl eq_refl eq_refl _ eq_refl eq_refl eq_refl).
  - discriminate.
  - apply list_elem_of_further, list_elem_of_here.
Defined.

End gallery_witness.

(** ** When two uploads share a file name *)

Section collisions.

Lemma format_d_inj n m : format_d n = format_d m -> n = m.
Proof.
  unfold format_d. intros Heq.
  apply (f_equal NilEmpty.int_of_string) in Heq.
  rewrite !NilEmpty.isi in Heq. injection Heq as Heq.
  now apply DecimalZ.to_int_inj.
Qed.

(** Two strings cut at their first underscore. *)
Lemma append_underscore_inj a b x y :
  "_"%char ∉ list_ascii_of_string a ->
  "_"%char ∉ list_ascii_of_string b ->
  a +:+ String "_" x = b +:+ String "_" y ->
  a = b /\ x = y.
Proof.
  revert b. induction a as [|c a IH]; intros [|d b] Ha Hb Heq.
  - injection Heq as ->. now split.
  - exfalso. rewrite append_cons in Heq. injection Heq as <- _.
    apply Hb. apply list_elem_of_here.
  - exfalso. rewrite append_cons in Heq. injection Heq as -> _.
    apply Ha. apply list_elem_of_here.
  - rewrite !append_cons in Heq. injection Heq as -> Heq.
    destruct (IH b) as [-> ->]; [| |exact Heq |now split].
    + intros Hin. apply Ha. cbn. now apply list_elem_of_further.
    + intros Hin. apply Hb. cbn. now apply list_elem_of_further.
Qed.

Lemma format_d_no_underscore n : "_"%char ∉ list_ascii_of_string (format_d n).
Proof.
  intros Hin. apply format_d_chars in Hin. revert Hin.
  apply (bool_decide_unpack _). vm_compute. reflexivity.
Qed.

(** The parts of a generated name can be read back from it. *)
Lemma upload_filename_parts t1 title1 d1 t2 title2 d2 :
  upload_filename t1 title1 d1 = upload_filename t2 title2 d2 ->
  t1 = t2 /\ title_part title1 = title_part title2 /\ fileExt d1 = fileExt d2.
Proof.
  intros Heq.
  destruct (uploaded_file_title t1 title1 d1) as [He1 Hs1].
  destruct (uploaded_file_title t2 title2 d2) as [He2 Hs2].
  cbn zeta in *. rewrite Heq in He1, Hs1.
  assert (Hext : fileExt d1 = fileExt d2) by congruence.
  assert (Hstem : format_d t1 +:+ "_" +:+ title_part title1
                  = format_d t2 +:+ "_" +:+ title_part title2) by congruence.
  apply append_underscore_inj in Hstem as [Hts Htitle];
    try apply format_d_no_underscore.
  split; [now apply format_d_inj |]. now split.
Qed.

(** X8.  Two generated names are equal exactly when the clock second, the
    file-name component of the title and the detected extension are all
    equal: the name determines its three parts. *)
Theorem upload_filename_collision (t1 t2 : Z) (title1 title2 : string)
    (d1 d2 : list byte) :
  upload_filename t1 title1 d1 = upload_filename t2 title2 d2
  <-> t1 = t2 /\ title_part title1 = title_part title2 /\ fileExt d1 = fileExt d2.
Proof.
  split; [apply upload_filename_parts |].
  intros (-> & Htitle & Hext). unfold upload_filename. now rewrite Htitle, Hext.
Qed.

(** X9.  Uploads that differ in the second, in the file-name component of
    the title or in the detected format do not disturb each other: after
    both went through, each of the two paths holds the bytes of its own
    request. *)
Theorem upload_distinct_kept (os1 os2 : OS) (c1 c2 : Ctx) (w : World)
    (p1 p2 : ImagePayload) (d1 d2 : list byte) :
  BodyParser c1 = Some p1 -> BodyParser c2 = Some p2 ->
  Image p1 <> "" -> Image p2 <> "" ->
  base64.DecodeString (Image p1) = Some d1 ->
  base64.DecodeString (Image p2) = Some d2 ->
  Now os1 <> Now os2 \/ title_part (Title p1) <> title_part (Title p2)
  \/ fileExt d1 <> fileExt d2 ->
  let path1 := "uploads/" +:+ upload_filename (Now os1) (Title p1) d1 in
  let path2 := "uploads/" +:+ upload_filename (Now os2) (Title p2) d2 in
  write_result os1 path1 d1 = WriteOk ->
  write_result os2 path2 d2 = WriteOk ->
  let after := (handleImageUpload os2 c2 (handleImageUpload os1 c1 w).2).2 in
  path1 <> path2
  /\ files after !! path1 = Some d1
  /\ files after !! path2 = Some d2.
Proof.
  intros Hb1 Hb2 Hi1 Hi2 Hd1 Hd2 Hdiff path1 path2 Hw1 Hw2.
  assert (Hpath : path1 <> path2).
  { intros Heq. unfold path1, path2 in Heq.
    assert (Hn : upload_filename (Now os1) (Title p1) d1
                 = upload_filename (Now os2) (Title p2) d2).
    { apply (f_equal (drop_bytes 8)) in Heq. exact Heq. }
    apply upload_filename_parts in Hn as (Ht & Htitle & Hext).
    destruct Hdiff as [H|[H|H]]; contradiction. }
  cbn zeta.
  rewrite (upload_ok os1 c1 w p1 d1 Hb1 Hi1 Hd1 Hw1). cbn [snd].
  rewrite (upload_ok os2 c2 _ p2 d2 Hb2 Hi2 Hd2 Hw2). cbn [snd files].
  fold path1 path2.
  split; [exact Hpath |]. split.
  - rewrite lookup_insert_ne by (intros H; now apply Hpath).
    apply lookup_insert_eq.
  - apply lookup_insert_eq.
Qed.

Lemma upload_distinct_kept_witness :
  files (handleImageUpload os_later png_upload_again
           (handleImageUpload os_healthy png_upload empty_world).2).2
    !! "uploads/1700000000_My_Photo!.png"
  = Some [x89; x50; x4e; x47; x0d; x0a; x1a; x0a].
Proof.
  refine (proj1 (proj2
            (upload_distinct_kept os_healthy os_later png_upload png_upload_again
               empty_world _ _
               [x89; x50; x4e; x47; x0d; x0a; x1a; x0a]
               [x89; x50; x4e; x47; x0d; x0a; x1a; x0a; x00]
               eq_refl eq_refl _ _ eq_refl eq_refl _ eq_refl eq_refl)));
    try discriminate.
  left. discriminate.
Defined.

End collisions.

(** ** Characters the decoder refuses *)

Section foreign_characters.

Lemma index_of_None c s i :
  c ∉ list_ascii_of_string s -> base64.index_of c s i = None.
Proof.
  revert i. induction s as [|d s IH]; intros i Hc; [reflexivity |].
  cbn [base64.index_of]. destruct (Ascii.eqb_spec c d) as [->|_].
  - exfalso. apply Hc. apply list_elem_of_here.
  - apply IH. intros Hin. apply Hc. cbn. now apply list_elem_of_further.
Qed.

Lemma skip_newlines_keeps c s :
  c ∈ list_ascii_of_string s -> base64.is_newline c = false ->
  c ∈ list_ascii_of_string (base64.skip_newlines s).
Proof.
  intros Hc Hnl. induction s as [|d s IH]; [exact Hc |].
  cbn [base64.skip_newlines]. destruct (base64.is_newline d) eqn:Hd; [|exact Hc].
  apply IH. cbn in Hc. apply elem_of_cons in Hc as [->|Hc]; [congruence | exact Hc].
Qed.

(** One character that is neither in the alphabet, nor the padding, nor a
    line break makes the decoder fail, wherever it stands. *)
Lemma decode_foreign c s dbuf :
  c ∈ list_ascii_of_string s ->
  base64.decodeMap c = None ->
  base64.is_newline c = false ->
  c <> base64.padChar ->
  base64.decode s dbuf = None.
Proof.
  intros Hc Hmap Hnl Hpad. revert dbuf Hc.
  induction s as [|h rest IH]; intros dbuf Hc; [now apply elem_of_nil in Hc |].
  cbn in Hc. apply elem_of_cons in Hc as [<-|Hc].
  - cbn [base64.decode]. rewrite Hmap, Hnl.
    destruct (Ascii.eqb_spec c base64.padChar) as [|_]; [contradiction | reflexivity].
  - cbn [base64.decode].
    destruct (base64.decodeMap h) as [out|].
    { destruct dbuf as [|d0 [|d1 [|d2 [|d3 dbuf]]]]; rewrite ?IH by exact Hc;
        reflexivity. }
    destruct (base64.is_newline h); [now apply IH |].
    destruct (negb (Ascii.eqb h base64.padChar)); [reflexivity |].
    pose proof (skip_newlines_keeps c rest Hc Hnl) as Hk.
    destruct dbuf as [|d0 [|d1 [|d2 [|d3 dbuf]]]]; try reflexivity.
    + destruct (base64.skip_newlines rest) as [|p rest'];
        [now apply elem_of_nil in Hk |].
      destruct (Ascii.eqb_spec p base64.padChar) as [->|_]; [|reflexivity].
      cbn [negb]. cbn in Hk. apply elem_of_cons in Hk as [->|Hk]; [contradiction |].
      pose proof (skip_newlines_keeps c rest' Hk Hnl) as Hk'.
      destruct (base64.skip_newlines rest'); [now apply elem_of_nil in Hk' | reflexivity].
    + destruct (base64.skip_newlines rest); [now apply elem_of_nil in Hk | reflexivity].
Qed.

(** X10.  An image field that holds, anywhere, a character that is neither
    in the base64 alphabet, nor [=], nor a line break, is answered 400
    [Invalid base64 image data] and nothing is stored.  A data URL
    ([data:image/png;base64,...]) is such a field. *)
Theorem upload_foreign_character (os : OS) (c : Ctx) (w : World)
    (payload : ImagePayload) (ch : ascii) :
  BodyParser c = Some payload ->
  ch ∈ list_ascii_of_string (Image payload) ->
  ch ∉ list_ascii_of_string base64.encodeStd ->
  ch ∉ ["="; "010"; "013"]%char ->
  (handleImageUpload os c w).1
  = {| Status := 400;
       body := JSONMap {[ "error" := VString "Invalid base64 image data";
                          "success" := VBool false ]} |}
  /\ files (handleImageUpload os c w).2 = files w.
Proof.
  intros Hbody Hin Halpha Hother.
  assert (Hdec : base64.DecodeString (Image payload) = None).
  { apply (decode_foreign ch); [exact Hin | now apply index_of_None | |].
    - unfold base64.is_newline.
      destruct (Ascii.eqb_spec ch "010") as [->|_];
        [exfalso; apply Hother; apply (bool_decide_unpack _); vm_compute; reflexivity |].
      destruct (Ascii.eqb_spec ch "013") as [->|_]; [|reflexivity].
      exfalso; apply Hother; apply (bool_decide_unpack _); vm_compute; reflexivity.
    - intros ->. apply Hother. apply list_elem_of_here. }
  unfold handleImageUpload. rewrite Hbody.
  destruct (String.eqb_spec (Image payload) "") as [He|_].
  - rewrite He in Hin. now apply elem_of_nil in Hin.
  - rewrite Hdec. split; reflexivity.
Qed.

Lemma upload_foreign_character_witness :
  Status (handleImageUpload os_healthy data_url_upload empty_world).1 = 400.
Proof.
  pose proof (upload_foreign_character os_healthy data_url_upload empty_world
                _ ":"%char eq_refl) as H.
  destruct H as [H _].
  - apply (bool_decide_unpack _). vm_compute. reflexivity.
  - apply (bool_decide_unpack _). vm_compute. reflexivity.
  - apply (bool_decide_unpack _). vm_compute. reflexivity.
  - rewrite H. reflexivity.
Defined.

End foreign_characters.
